(** * lmic_arduino_tutorial.ino: the telemetry record and the LMIC event handler

    A shallow embedding of the sketch [lmic_arduino_tutorial.ino]:

    - the fixed-width integers of the packed structures [GPS_TDF_DATA] and
      [GPS_TDF], with their object representation as octets;
    - the procedures [sendRawData], [sendTDFData], [DoSendData],
      [OnTransferComplete], [OnJoinComplete] and [onEvent], as programs that
      read the LMIC structure and emit the calls they make to the Arduino
      core and to the LMIC library, in order.

    The LMIC library ([lmic.h]) and the Arduino core are not part of the
    sketch: the constants the sketch takes from [lmic.h] are the fields of
    the class [lmic_h], and the calls into both are recorded, not
    interpreted. *)

From Stdlib Require Import String ZArith List Bool Lia.
Import ListNotations.
Local Open Scope string_scope.
Local Open Scope list_scope.
Local Open Scope Z_scope.

(** ** Fixed-width integer types *)

Module CInt.

Inductive signedness : Set := Signed | Unsigned.

(** An integer type is its size in octets and its signedness. *)
Record ctype : Set := mk_ctype { sizeof : nat; sign : signedness }.

Definition int16_t : ctype := mk_ctype 2 Signed.
Definition int32_t : ctype := mk_ctype 4 Signed.
Definition uint8_t : ctype := mk_ctype 1 Unsigned.
Definition uint16_t : ctype := mk_ctype 2 Unsigned.
Definition uint32_t : ctype := mk_ctype 4 Unsigned.

Definition modulus (t : ctype) : Z := 256 ^ Z.of_nat (sizeof t).

(** Conversion of a mathematical integer to the type [t]: reduction modulo
    [2^w], read back in two's complement for a signed type. *)
Definition wrap (t : ctype) (v : Z) : Z :=
  let u := v mod modulus t in
  match sign t with
  | Unsigned => u
  | Signed => if u <? modulus t / 2 then u else u - modulus t
  end.

Definition in_range (t : ctype) (v : Z) : bool :=
  match sign t with
  | Unsigned => (0 <=? v) && (v <? modulus t)
  | Signed => (- (modulus t / 2) <=? v) && (v <? modulus t / 2)
  end.

(** The byte order of the target; the sketch converts nothing, so the
    octets on the air are in the order of the microcontroller. *)
Inductive byte_order : Set := LittleEndian | BigEndian.

(** [n] octets of [v], least significant first. *)
Fixpoint octets_le (n : nat) (v : Z) : list Z :=
  match n with
  | O => []
  | S k => v mod 256 :: octets_le k (v / 256)
  end.

Fixpoint of_octets_le (bs : list Z) : Z :=
  match bs with
  | [] => 0
  | b :: rest => b + 256 * of_octets_le rest
  end.

Definition in_order (bo : byte_order) (bs : list Z) : list Z :=
  match bo with
  | LittleEndian => bs
  | BigEndian => rev bs
  end.

(** Object representation of a value of type [t]. *)
Definition object_repr (bo : byte_order) (t : ctype) (v : Z) : list Z :=
  in_order bo (octets_le (sizeof t) (v mod modulus t)).

(** Value of type [t] held by [sizeof t] octets. *)
Definition value_of (bo : byte_order) (t : ctype) (bs : list Z) : Z :=
  wrap t (of_octets_le (in_order bo bs)).

(** A read of type [t] at octet offset [off] of an object; a read that
    runs past the end of the object has no defined result. *)
Definition load (bo : byte_order) (t : ctype) (off : nat) (obj : list Z) :
    option Z :=
  if (off + sizeof t <=? length obj)%nat
  then Some (value_of bo t (firstn (sizeof t) (skipn off obj)))
  else None.

Definition is_octet (b : Z) : bool := (0 <=? b) && (b <? 256).

End CInt.

(** ** Packed structures *)

Module Packed.
Import CInt.

(** A member of the structure [S]: its name, its integer type, and its
    value in an object of type [S]. *)
Record member (S : Type) : Type :=
  mk_member { m_name : string; m_type : ctype; m_get : S -> Z }.
Arguments mk_member {S} _ _ _.
Arguments m_name {S} _.
Arguments m_type {S} _.
Arguments m_get {S} _ _.

(** [__attribute__((packed))]: every member has alignment 1, so the size
    is the sum of the members' sizes ... *)
Fixpoint struct_sizeof {S : Type} (ms : list (member S)) : nat :=
  match ms with
  | [] => O
  | m :: rest => (sizeof (m_type m) + struct_sizeof rest)%nat
  end.

(** ... a member starts where the one declared before it ends ... *)
Fixpoint offsetof {S : Type} (ms : list (member S)) (name : string) : nat :=
  match ms with
  | [] => O
  | m :: rest =>
      if String.eqb (m_name m) name then O
      else (sizeof (m_type m) + offsetof rest name)%nat
  end.

(** ... and the object is its members' octets one after the other, in
    the order of declaration. *)
Fixpoint struct_repr {S : Type} (bo : byte_order) (ms : list (member S))
    (s : S) : list Z :=
  match ms with
  | [] => []
  | m :: rest => object_repr bo (m_type m) (m_get m s) ++ struct_repr bo rest s
  end.

(** [memset(p, c, n)] on a fresh object of [n] octets. *)
Definition memset (c : Z) (n : nat) : list Z := repeat (c mod 256) n.

(** A step that needs the defined result of the step before it. *)
Definition and_then {A B : Type} (o : option A) (k : A -> option B) :
    option B :=
  match o with
  | Some a => k a
  | None => None
  end.

End Packed.

(** ** The structures of the sketch *)

Import CInt Packed.

(** [struct GPS_TDF_DATA]; the member [fix] of the sketch is [fix_] here,
    [fix] being a keyword. *)
Record GPS_TDF_DATA : Set := mk_GPS_TDF_DATA {
  lon : Z;      (* int32_t *)
  lat : Z;      (* int32_t *)
  height : Z;   (* uint32_t *)
  accuracy : Z; (* uint16_t *)
  heading : Z;  (* uint16_t *)
  speed : Z;    (* uint16_t *)
  pdop : Z;     (* uint8_t *)
  fix_ : Z;     (* uint8_t *)
  numsv : Z;    (* uint8_t *)
  flags : Z     (* uint8_t *)
}.

Definition GPS_TDF_DATA_members : list (member GPS_TDF_DATA) :=
  [ mk_member "lon" int32_t lon;
    mk_member "lat" int32_t lat;
    mk_member "height" uint32_t height;
    mk_member "accuracy" uint16_t accuracy;
    mk_member "heading" uint16_t heading;
    mk_member "speed" uint16_t speed;
    mk_member "pdop" uint8_t pdop;
    mk_member "fix" uint8_t fix_;
    mk_member "numsv" uint8_t numsv;
    mk_member "flags" uint8_t flags ].

(** [sizeof(GPS_TDF_DATA)] *)
Definition sizeof_GPS_TDF_DATA : nat := struct_sizeof GPS_TDF_DATA_members.

(** The members of an object of type [GPS_TDF_DATA] held by the octets
    [obj]. *)
Definition GPS_TDF_DATA_of_octets (bo : byte_order) (obj : list Z) :
    option GPS_TDF_DATA :=
  let at_ (name : string) := offsetof GPS_TDF_DATA_members name in
  and_then (load bo int32_t (at_ "lon") obj) (fun v_lon =>
  and_then (load bo int32_t (at_ "lat") obj) (fun v_lat =>
  and_then (load bo uint32_t (at_ "height") obj) (fun v_height =>
  and_then (load bo uint16_t (at_ "accuracy") obj) (fun v_accuracy =>
  and_then (load bo uint16_t (at_ "heading") obj) (fun v_heading =>
  and_then (load bo uint16_t (at_ "speed") obj) (fun v_speed =>
  and_then (load bo uint8_t (at_ "pdop") obj) (fun v_pdop =>
  and_then (load bo uint8_t (at_ "fix") obj) (fun v_fix =>
  and_then (load bo uint8_t (at_ "numsv") obj) (fun v_numsv =>
  and_then (load bo uint8_t (at_ "flags") obj) (fun v_flags =>
  Some {| lon := v_lon; lat := v_lat; height := v_height;
          accuracy := v_accuracy; heading := v_heading; speed := v_speed;
          pdop := v_pdop; fix_ := v_fix; numsv := v_numsv;
          flags := v_flags |})))))))))).

(** The constructor [GPS_TDF_DATA()]:
    [memset(this, 0, sizeof(GPS_TDF_DATA))]. The object is what [memset]
    wrote: a member that reaches octets it did not write has no defined
    value. *)
Definition GPS_TDF_DATA_ctor (bo : byte_order) : option GPS_TDF_DATA :=
  GPS_TDF_DATA_of_octets bo (memset 0 sizeof_GPS_TDF_DATA).

(** The assignment [d.lat = v]. *)
Definition set_lat (v : Z) (d : GPS_TDF_DATA) : GPS_TDF_DATA :=
  {| lon := lon d; lat := wrap int32_t v; height := height d;
     accuracy := accuracy d; heading := heading d; speed := speed d;
     pdop := pdop d; fix_ := fix_ d; numsv := numsv d; flags := flags d |}.

(** [struct GPS_TDF]: the SID header and the data. *)
Record GPS_TDF : Set := mk_GPS_TDF {
  GPS_SID : Z;        (* const int16_t *)
  Data : GPS_TDF_DATA
}.

(** The members of [GPS_TDF], those of the nested [Data] one level up. *)
Definition GPS_TDF_members : list (member GPS_TDF) :=
  mk_member "GPS_SID" int16_t GPS_SID ::
  map (fun m => mk_member ("Data." ++ m_name m)%string (m_type m)
                  (fun tdf => m_get m (Data tdf)))
      GPS_TDF_DATA_members.

(** [sizeof(GPS_TDF)] *)
Definition sizeof_GPS_TDF : nat := struct_sizeof GPS_TDF_members.

(** The implicit constructor [GPS_TDF()]: the default member initializer
    [GPS_SID = 281L], then [GPS_TDF_DATA()] for [Data]. *)
Definition GPS_TDF_ctor (bo : byte_order) : option GPS_TDF :=
  and_then (GPS_TDF_DATA_ctor bo) (fun data =>
  Some {| GPS_SID := wrap int16_t 281; Data := data |}).

(** [tdf.Data.lat = v]; [GPS_SID] is [const] and has no assignment. *)
Definition set_Data_lat (v : Z) (tdf : GPS_TDF) : GPS_TDF :=
  {| GPS_SID := GPS_SID tdf; Data := set_lat v (Data tdf) |}.

(** Every member holds a value of its type. *)
Definition well_typed {S : Type} (ms : list (member S)) (s : S) : bool :=
  forallb (fun m => in_range (m_type m) (m_get m s)) ms.


(** ** The interface to the LMIC library and the Arduino core *)

(** What the sketch takes from [lmic.h]: three enumerators of [ev_t], the
    bit [OP_TXRXPEND] of [LMIC.opmode], and the bits [TXRX_ACK] and
    [TXRX_NACK] of [LMIC.txrxFlags]. The three enumerators label the cases
    of one [switch], which compiles only when they are distinct. *)
Class lmic_h : Type := {
  EV_JOINING : Z;
  EV_JOINED : Z;
  EV_TXCOMPLETE : Z;
  OP_TXRXPEND : Z;
  TXRX_ACK : Z;
  TXRX_NACK : Z;
  case_labels_distinct : NoDup [EV_TXCOMPLETE; EV_JOINED; EV_JOINING]
}.

(** The fields of the global [LMIC] (a [struct lmic_t]) that the sketch
    reads. *)
Record lmic_t : Set := mk_lmic_t {
  opmode : Z;    (* u2_t *)
  txrxFlags : Z  (* u1_t *)
}.

(** A [const char *]: [None] is the null pointer. *)
Definition c_str : Set := option string.

(** The calls the sketch makes into the Arduino core and into LMIC. *)
Inductive call : Set :=
| Serial_begin (baud : Z)
| Serial_print (s : c_str)
| Serial_print_dec (n : Z)
| Serial_println (s : c_str)
| delay (ms : Z)
| os_init
| LMIC_reset
| LMIC_startJoining
| LMIC_setTxData2 (port : Z) (data : list Z) (dlen : Z) (confirmed : bool)
| os_runloop_once.

(** A procedure of the sketch reads [LMIC] and makes calls, in order; it
    has no result when it reads outside an array. [LMIC] is written by
    the library only, and the sketch reads no field of it after it has
    called [LMIC_setTxData2], so one value of [LMIC] serves a whole
    callback. *)
Definition proc (A : Type) : Type := lmic_t -> option (A * list call).

Definition ret {A : Type} (a : A) : proc A := fun _ => Some (a, []).

Definition bind {A B : Type} (p : proc A) (k : A -> proc B) : proc B :=
  fun L =>
    match p L with
    | None => None
    | Some (a, t) =>
        match k a L with
        | None => None
        | Some (b, t') => Some (b, t ++ t')
        end
    end.

Definition do_call (c : call) : proc unit := fun _ => Some (tt, [c]).

Definition LMIC : proc lmic_t := fun L => Some (L, []).

Definition undefined {A : Type} : proc A := fun _ => None.

(** A value the procedure needs, when it is defined. *)
Definition defined {A : Type} (o : option A) : proc A :=
  match o with
  | Some a => ret a
  | None => undefined
  end.

(** The calls a procedure makes. *)
Definition calls_of (p : proc unit) (L : lmic_t) : option (list call) :=
  option_map snd (p L).

Declare Scope proc_scope.
Delimit Scope proc_scope with proc.
Bind Scope proc_scope with proc.

Notation "x <- p ;; k" := (bind p (fun x => k))
  (at level 61, p at next level, right associativity) : proc_scope.
Notation "p ;; k" := (bind p (fun _ => k))
  (at level 61, right associativity) : proc_scope.

(** An integer used as a condition. *)
Definition truthy (v : Z) : bool := negb (v =? 0).

(** [T a[n] = { inits }]: the elements without an initializer are
    value-initialized. *)
Definition array_init {A : Type} (n : nat) (zero : A) (inits : list A) :
    list A :=
  inits ++ repeat zero (n - length inits).

(** [a[i]]; a read outside the array has no defined result. *)
Definition array_get {A : Type} (a : list A) (i : Z) : proc A :=
  if i <? 0 then undefined
  else match nth_error a (Z.to_nat i) with
       | Some x => ret x
       | None => undefined
       end.

(** ** The sketch *)

Definition EventCount : Z := 15.

(** No comma separates the last two literals: they are one literal, and
    the array has fourteen initializers. *)
Definition EventName : list c_str :=
  array_init (Z.to_nat EventCount) None
    [ Some "Scan Timeout";
      Some "Beacon Found";
      Some "Beacon Missed";
      Some "Beacon Tracked";
      Some "Joining";
      Some "Joined";
      Some "RFU";
      Some "Join Failed";
      Some "Rejoin Failed";
      Some "TX Complete";
      Some "Lost TSync";
      Some "Reset";
      Some "RXComplete";
      Some ("Link Dead" ++ "Link Alive")%string ].

Section Sketch.

Context {lmic : lmic_h} (bo : byte_order).

Local Open Scope proc_scope.

(** [data] is the object the pointer refers to. *)
Definition sendRawData (data : list Z) (len : Z) (confirm : bool) :
    proc unit :=
  L <- LMIC ;;
  if truthy (Z.land (opmode L) OP_TXRXPEND) then ret tt
  else
    do_call (LMIC_setTxData2 1 data len confirm) ;;
    do_call (Serial_print (Some "Sending ")) ;;
    do_call (Serial_print_dec len) ;;
    do_call (Serial_println (Some " bytes of data")).

(** [sizeof(tdf)] is converted to the [uint8_t] parameter [len]. *)
Definition sendTDFData (tdf : GPS_TDF) (confirm : bool) : proc unit :=
  let data := struct_repr bo GPS_TDF_members tdf in
  sendRawData data (wrap uint8_t (Z.of_nat sizeof_GPS_TDF)) confirm.

(** The local [tdf] of [DoSendData] as [sendTDFData] receives it:
    [GPS_TDF tdf; tdf.Data.lat = 1234567890;]. *)
Definition DoSendData_tdf : proc GPS_TDF :=
  tdf <- defined (GPS_TDF_ctor bo) ;;
  ret (set_Data_lat 1234567890 tdf).

Definition DoSendData : proc unit :=
  tdf <- DoSendData_tdf ;;
  sendTDFData tdf true.

Definition OnTransferComplete : proc unit :=
  do_call (Serial_println (Some "Transfer Complete")) ;;
  L <- LMIC ;;
  (if truthy (Z.land (txrxFlags L) TXRX_ACK) then
     do_call (Serial_println (Some "Received ACK"))
   else if truthy (Z.land (txrxFlags L) TXRX_NACK) then
     do_call (Serial_println (Some "No ACK received"))
   else ret tt) ;;
  do_call (delay 5000) ;;
  DoSendData.

Definition OnJoinComplete : proc unit :=
  do_call (Serial_println (Some "Joined network")) ;;
  DoSendData.

Definition onEvent (ev : Z) : proc unit :=
  do_call (Serial_print (Some "Event: ")) ;;
  (if (1 <=? ev) && (ev <=? EventCount) then
     name <- array_get EventName (ev - 1) ;;
     do_call (Serial_println name)
   else ret tt) ;;
  if ev =? EV_TXCOMPLETE then OnTransferComplete
  else if ev =? EV_JOINED then OnJoinComplete
  else if ev =? EV_JOINING then ret tt
  else do_call (Serial_println (Some "unhandled event")).

Definition setup_lmic : proc unit :=
  do_call (Serial_println (Some "Setting up LMIC")) ;;
  do_call os_init ;;
  do_call LMIC_reset ;;
  do_call LMIC_startJoining.

(** [while (!Serial) delay(1);] leaves the loop once the USB port is
    open: [polls] is the number of times it found the port closed. *)
Fixpoint wait_serial (polls : nat) : proc unit :=
  match polls with
  | O => ret tt
  | S k => do_call (delay 1) ;; wait_serial k
  end.

Definition setup (polls : nat) : proc unit :=
  do_call (Serial_begin 9600) ;;
  wait_serial polls ;;
  do_call (Serial_println (Some "Started program")) ;;
  setup_lmic.

(** The events LMIC delivers to [onEvent] within one [os_runloop_once],
    each with the value of [LMIC] at that callback. *)
Definition delivery : Set := (Z * lmic_t)%type.

Fixpoint deliver (ds : list delivery) : option (list call) :=
  match ds with
  | [] => Some []
  | (ev, L) :: rest =>
      match calls_of (onEvent ev) L, deliver rest with
      | Some t, Some t' => Some (t ++ t')
      | _, _ => None
      end
  end.

(** One [loop()]: [os_runloop_once()], and the callbacks it makes. *)
Definition loop (ds : list delivery) : option (list call) :=
  option_map (cons os_runloop_once) (deliver ds).

Fixpoint loops (iterations : list (list delivery)) : option (list call) :=
  match iterations with
  | [] => Some []
  | ds :: rest =>
      match loop ds, loops rest with
      | Some t, Some t' => Some (t ++ t')
      | _, _ => None
      end
  end.

(** The calls of the sketch from reset through the given iterations of
    [loop()]; [L0] is [LMIC] at reset. *)
Definition sketch (polls : nat) (L0 : lmic_t)
    (iterations : list (list delivery)) : option (list call) :=
  match calls_of (setup polls) L0, loops iterations with
  | Some t, Some t' => Some (t ++ t')
  | _, _ => None
  end.

(** The octets LMIC copies for a call of [LMIC_setTxData2]. *)
Definition sent (c : call) : option (list Z) :=
  match c with
  | LMIC_setTxData2 _ data dlen _ => Some (firstn (Z.to_nat dlen) data)
  | _ => None
  end.

Definition is_send (c : call) : bool :=
  match c with LMIC_setTxData2 _ _ _ _ => true | _ => false end.

Definition is_delay (c : call) : bool :=
  match c with delay _ => true | _ => false end.

(** A call that only writes to the serial console. *)
Definition is_log (c : call) : bool :=
  match c with
  | Serial_print _ | Serial_print_dec _ | Serial_println _ => true
  | _ => false
  end.

(** The record [DoSendData] builds: the SID, the dummy latitude, and zero
    everywhere else. *)
Definition dummy_record : GPS_TDF :=
  mk_GPS_TDF 281 (mk_GPS_TDF_DATA 0 1234567890 0 0 0 0 0 0 0 0).

(** A call is not a send, or is the send of [dummy_record], confirmed, on
    port 1. *)
Definition only_uplink (c : call) : Prop :=
  is_send c = true ->
  c = LMIC_setTxData2 1 (struct_repr bo GPS_TDF_members dummy_record) 24 true.

End Sketch.

(** [lmic.h] of arduino-lmic, the library the sketch names: [ev_t] counts
    from [EV_SCAN_TIMEOUT = 1] in the order [EventName] follows. *)
#[export] Program Instance arduino_lmic : lmic_h := {|
  EV_JOINING := 5;
  EV_JOINED := 6;
  EV_TXCOMPLETE := 10;
  OP_TXRXPEND := 0x0080;
  TXRX_ACK := 0x80;
  TXRX_NACK := 0x40
|}.
Next Obligation.
  repeat constructor; simpl; intuition discriminate.
Qed.

(** ** The credentials *)

(** The three arrays, every octet [0x00] in the sketch as published. *)
Definition DEVEUI : list Z := [0; 0; 0; 0; 0; 0; 0; 0].

Definition APPEUI : list Z := [0; 0; 0; 0; 0; 0; 0; 0].

Definition APPKEY : list Z :=
  [0; 0; 0; 0; 0; 0; 0; 0; 0; 0; 0; 0; 0; 0; 0; 0].

(** [memcpy(dst, src, n)], with [dst] and [src] the arrays from the two
    pointers on: the first [n] octets of [dst] become those of [src]; a
    copy that runs past the end of either array has no defined result. *)
Definition memcpy (dst src : list Z) (n : nat) : option (list Z) :=
  if (n <=? length dst)%nat && (n <=? length src)%nat
  then Some (firstn n src ++ skipn n dst)
  else None.

Definition os_getArtEui (buf : list Z) : option (list Z) := memcpy buf APPEUI 8.

Definition os_getDevEui (buf : list Z) : option (list Z) := memcpy buf DEVEUI 8.

Definition os_getDevKey (buf : list Z) : option (list Z) := memcpy buf APPKEY 16.

(** ** Vocabulary for runs *)

Section Runs.

Context {lmic : lmic_h} (bo : CInt.byte_order).

(** The send of [dummy_record]. *)
Definition uplink : call :=
  LMIC_setTxData2 1 (Packed.struct_repr bo GPS_TDF_members dummy_record) 24
    true.

(** A delivery that reaches [DoSendData] with no transmission pending. *)
Definition submits (d : delivery) : bool :=
  ((fst d =? EV_TXCOMPLETE) || (fst d =? EV_JOINED))
  && negb (truthy (Z.land (opmode (snd d)) OP_TXRXPEND)).

Definition is_txcomplete (d : delivery) : bool := fst d =? EV_TXCOMPLETE.

(** The calls other than console lines that a delivery brings about. *)
Definition effects_of (d : delivery) : list call :=
  (if is_txcomplete d then [delay 5000] else [])
  ++ (if submits d then [uplink] else []).

(** The three calls of [setup_lmic] into the library. *)
Definition is_bring_up (c : call) : bool :=
  match c with
  | os_init | LMIC_reset | LMIC_startJoining => true
  | _ => false
  end.

Definition is_runloop (c : call) : bool :=
  match c with os_runloop_once => true | _ => false end.

End Runs.

(** * Facts *)

Module CIntFacts.
Import CInt.

Lemma modulus_pos (t : ctype) : 0 < modulus t.
Proof. unfold modulus. apply Z.pow_pos_nonneg; lia. Qed.

Lemma octets_le_length (n : nat) (v : Z) : length (octets_le n v) = n.
Proof.
  revert v. induction n as [|n IH]; intros v; simpl; [reflexivity|].
  now rewrite IH.
Qed.

Lemma octets_le_octet (n : nat) (v : Z) :
  forallb is_octet (octets_le n v) = true.
Proof.
  revert v. induction n as [|n IH]; intros v; simpl; [reflexivity|].
  rewrite IH, andb_true_r. unfold is_octet.
  pose proof (Z.mod_pos_bound v 256 ltac:(lia)).
  apply andb_true_intro; split; [apply Z.leb_le | apply Z.ltb_lt]; lia.
Qed.

Lemma of_octets_le_octets_le (n : nat) (v : Z) :
  of_octets_le (octets_le n v) = v mod 256 ^ Z.of_nat n.
Proof.
  revert v. induction n as [|n IH]; intros v.
  - simpl. now rewrite Z.mod_1_r.
  - cbn [octets_le of_octets_le]. rewrite IH.
    rewrite Nat2Z.inj_succ, Z.pow_succ_r by lia.
    rewrite (Z.rem_mul_r v 256 (256 ^ Z.of_nat n)); [lia | lia |].
    apply Z.pow_pos_nonneg; lia.
Qed.

Lemma in_order_involutive (bo : byte_order) (bs : list Z) :
  in_order bo (in_order bo bs) = bs.
Proof. destruct bo; simpl; [reflexivity | apply rev_involutive]. Qed.

Lemma in_order_length (bo : byte_order) (bs : list Z) :
  length (in_order bo bs) = length bs.
Proof. destruct bo; simpl; [reflexivity | apply length_rev]. Qed.

Lemma object_repr_length (bo : byte_order) (t : ctype) (v : Z) :
  length (object_repr bo t v) = sizeof t.
Proof. unfold object_repr. now rewrite in_order_length, octets_le_length. Qed.

Lemma object_repr_octets (bo : byte_order) (t : ctype) (v : Z) :
  forallb is_octet (object_repr bo t v) = true.
Proof.
  unfold object_repr. destruct bo; simpl.
  - apply octets_le_octet.
  - rewrite forallb_forall. intros b Hb. apply in_rev in Hb.
    pose proof (octets_le_octet (sizeof t) (v mod modulus t)) as H.
    rewrite forallb_forall in H. now apply H.
Qed.

Lemma wrap_mod (t : ctype) (v : Z) : wrap t (v mod modulus t) = wrap t v.
Proof. unfold wrap. now rewrite Z.mod_mod by (pose proof (modulus_pos t); lia). Qed.

(** Reading back what was written gives the value converted to the type. *)
Lemma value_of_object_repr (bo : byte_order) (t : ctype) (v : Z) :
  value_of bo t (object_repr bo t v) = wrap t v.
Proof.
  unfold value_of, object_repr.
  rewrite in_order_involutive, of_octets_le_octets_le.
  fold (modulus t). now rewrite !wrap_mod.
Qed.

Lemma modulus_even (t : ctype) : sizeof t <> O -> modulus t = 2 * (modulus t / 2).
Proof.
  intros Hs. unfold modulus. destruct (sizeof t) as [|k]; [congruence|].
  rewrite Nat2Z.inj_succ, Z.pow_succ_r by lia.
  replace (256 * 256 ^ Z.of_nat k) with ((128 * 256 ^ Z.of_nat k) * 2) by lia.
  rewrite Z.div_mul by lia. lia.
Qed.

(** A value within the range of its type is unchanged by the conversion. *)
Lemma wrap_in_range (t : ctype) (v : Z) :
  sizeof t <> O -> in_range t v = true -> wrap t v = v.
Proof.
  intros Hs Hr. unfold wrap, in_range in *.
  pose proof (modulus_pos t) as Hm. pose proof (modulus_even t Hs) as He.
  destruct (sign t); apply andb_prop in Hr as [Hlo Hhi];
    apply Z.leb_le in Hlo; apply Z.ltb_lt in Hhi.
  - destruct (Z_lt_le_dec v 0) as [Hneg|Hpos].
    + rewrite <- (Z.mod_add v 1 (modulus t)) by lia.
      rewrite Z.mod_small by lia.
      destruct (Z.ltb_spec (v + 1 * modulus t) (modulus t / 2)); lia.
    + rewrite Z.mod_small by lia.
      destruct (Z.ltb_spec v (modulus t / 2)); lia.
  - apply Z.mod_small; lia.
Qed.

Lemma wrap_range (t : ctype) (v : Z) :
  sizeof t <> O -> in_range t (wrap t v) = true.
Proof.
  intros Hs. unfold wrap, in_range.
  pose proof (modulus_pos t) as Hm. pose proof (modulus_even t Hs) as He.
  pose proof (Z.mod_pos_bound v (modulus t) Hm) as Hb.
  destruct (sign t).
  - destruct (Z.ltb_spec (v mod modulus t) (modulus t / 2));
      apply andb_true_intro; split; try apply Z.leb_le; try apply Z.ltb_lt; lia.
  - apply andb_true_intro; split; [apply Z.leb_le | apply Z.ltb_lt]; lia.
Qed.

End CIntFacts.

(** ** The layout of packed structures *)

Module PackedFacts.
Import CInt Packed CIntFacts.

Section Layout.

Context {S : Type} (bo : byte_order).

Lemma struct_repr_length (ms : list (member S)) (s : S) :
  length (struct_repr bo ms s) = struct_sizeof ms.
Proof.
  induction ms as [|m ms IH]; simpl; [reflexivity|].
  now rewrite length_app, object_repr_length, IH.
Qed.

Lemma struct_repr_octets (ms : list (member S)) (s : S) :
  forallb is_octet (struct_repr bo ms s) = true.
Proof.
  induction ms as [|m ms IH]; simpl; [reflexivity|].
  now rewrite forallb_app, object_repr_octets, IH.
Qed.

Lemma load_here (t : ctype) (v : Z) (rest : list Z) :
  load bo t 0 (object_repr bo t v ++ rest) = Some (wrap t v).
Proof.
  unfold load. cbn [skipn Nat.add].
  assert (Hin : (sizeof t <=? length (object_repr bo t v ++ rest))%nat = true)
    by (apply Nat.leb_le; rewrite length_app, object_repr_length; lia).
  rewrite Hin.
  rewrite firstn_app, object_repr_length, Nat.sub_diag, firstn_O, app_nil_r.
  rewrite firstn_all2 by (rewrite object_repr_length; lia).
  now rewrite value_of_object_repr.
Qed.

Lemma load_past (t : ctype) (off : nat) (pre rest : list Z) :
  load bo t (length pre + off) (pre ++ rest) = load bo t off rest.
Proof.
  unfold load. rewrite skipn_app, length_app.
  rewrite skipn_all2 by lia.
  replace (length pre + off - length pre)%nat with off by lia.
  replace (length pre + off + sizeof t <=? length pre + length rest)%nat
    with (off + sizeof t <=? length rest)%nat; [reflexivity|].
  destruct (Nat.leb_spec (off + sizeof t) (length rest));
    symmetry; [apply Nat.leb_le | apply Nat.leb_gt]; lia.
Qed.

(** A read that does not fit the object has no result. *)
Lemma load_past_the_end (t : ctype) (off : nat) (obj : list Z) :
  (length obj < off + sizeof t)%nat -> load bo t off obj = None.
Proof. intros H. unfold load. apply Nat.leb_gt in H. now rewrite H. Qed.

(** A read of a member's type at the member's offset gives the member. *)
Lemma load_member (ms : list (member S)) (s : S) (m : member S) :
  NoDup (map m_name ms) -> In m ms ->
  load bo (m_type m) (offsetof ms (m_name m)) (struct_repr bo ms s)
  = Some (wrap (m_type m) (m_get m s)).
Proof.
  induction ms as [|h ms IH]; intros Hnd Hin; [contradiction|].
  cbn [map] in Hnd. apply NoDup_cons_iff in Hnd as [Hh Hnd].
  cbn [offsetof struct_repr]. destruct Hin as [->|Hin].
  - rewrite String.eqb_refl. apply load_here.
  - assert (Hne : m_name h <> m_name m).
    { intros Heq. apply Hh. rewrite Heq. now apply in_map. }
    apply String.eqb_neq in Hne. rewrite Hne.
    rewrite <- (object_repr_length bo (m_type h) (m_get h s)).
    rewrite load_past. now apply IH.
Qed.

Lemma well_typed_member (ms : list (member S)) (s : S) (m : member S) :
  well_typed ms s = true -> In m ms -> in_range (m_type m) (m_get m s) = true.
Proof.
  unfold well_typed. rewrite forallb_forall. intros H Hin. now apply H.
Qed.

End Layout.

End PackedFacts.

(** ** The two structures *)

Module GPSFacts.
Import CInt Packed CIntFacts PackedFacts.

Lemma sizeof_GPS_TDF_DATA_eq : sizeof_GPS_TDF_DATA = 22%nat.
Proof. reflexivity. Qed.

Lemma sizeof_GPS_TDF_eq : sizeof_GPS_TDF = 24%nat.
Proof. reflexivity. Qed.

Lemma GPS_TDF_member_names :
  map m_name GPS_TDF_members
  = [ "GPS_SID"; "Data.lon"; "Data.lat"; "Data.height"; "Data.accuracy";
      "Data.heading"; "Data.speed"; "Data.pdop"; "Data.fix"; "Data.numsv";
      "Data.flags" ].
Proof. reflexivity. Qed.

Lemma GPS_TDF_member_names_distinct : NoDup (map m_name GPS_TDF_members).
Proof.
  rewrite GPS_TDF_member_names.
  repeat (apply NoDup_cons; [cbn [In]; intuition discriminate|]).
  apply NoDup_nil.
Qed.

(** The object is the SID followed by the data. *)
Lemma GPS_TDF_repr (bo : byte_order) (tdf : GPS_TDF) :
  struct_repr bo GPS_TDF_members tdf
  = object_repr bo int16_t (GPS_SID tdf)
    ++ struct_repr bo GPS_TDF_DATA_members (Data tdf).
Proof. reflexivity. Qed.

(** [memset] to zero leaves every member zero. *)
Lemma GPS_TDF_DATA_ctor_zero (bo : byte_order) :
  GPS_TDF_DATA_ctor bo = Some (mk_GPS_TDF_DATA 0 0 0 0 0 0 0 0 0 0).
Proof. destruct bo; reflexivity. Qed.

Lemma GPS_TDF_ctor_eq (bo : byte_order) :
  GPS_TDF_ctor bo
  = Some (mk_GPS_TDF 281 (mk_GPS_TDF_DATA 0 0 0 0 0 0 0 0 0 0)).
Proof. unfold GPS_TDF_ctor. now rewrite GPS_TDF_DATA_ctor_zero. Qed.

(** The record [DoSendData] builds. *)
Lemma dummy_record_eq (bo : byte_order) (L : lmic_t) :
  DoSendData_tdf bo L = Some (dummy_record, []).
Proof. unfold DoSendData_tdf. now rewrite GPS_TDF_ctor_eq. Qed.

Lemma dummy_record_well_typed :
  well_typed GPS_TDF_members dummy_record = true.
Proof. reflexivity. Qed.

(** A read at a member's offset of a well-typed record gives the member. *)
Lemma load_GPS_TDF (bo : byte_order) (tdf : GPS_TDF) (m : member GPS_TDF) :
  well_typed GPS_TDF_members tdf = true -> In m GPS_TDF_members ->
  load bo (m_type m) (offsetof GPS_TDF_members (m_name m))
    (struct_repr bo GPS_TDF_members tdf)
  = Some (m_get m tdf).
Proof.
  intros Hwt Hin.
  rewrite (load_member bo _ _ _ GPS_TDF_member_names_distinct Hin).
  f_equal. apply wrap_in_range.
  - cbn in Hin. intuition (subst; discriminate).
  - exact (well_typed_member _ _ _ Hwt Hin).
Qed.

End GPSFacts.

(** ** Procedures and their calls *)

Module ProcFacts.

Lemma calls_of_do_call (c : call) (L : lmic_t) :
  calls_of (do_call c) L = Some [c].
Proof. reflexivity. Qed.

Lemma calls_of_ret (L : lmic_t) : calls_of (ret tt) L = Some [].
Proof. reflexivity. Qed.

(** Sequencing appends the calls, and is undefined when a part is. *)
Lemma calls_of_seq (p q : proc unit) (L : lmic_t) :
  calls_of (p ;; q)%proc L =
  match calls_of p L, calls_of q L with
  | Some t, Some t' => Some (t ++ t')
  | _, _ => None
  end.
Proof.
  unfold calls_of, bind.
  destruct (p L) as [[[] t]|]; [|reflexivity].
  destruct (q L) as [[[] t']|]; reflexivity.
Qed.

Lemma calls_of_call_seq (c : call) (q : proc unit) (L : lmic_t) :
  calls_of (do_call c ;; q)%proc L = option_map (cons c) (calls_of q L).
Proof.
  rewrite calls_of_seq, calls_of_do_call.
  destruct (calls_of q L); reflexivity.
Qed.

(** Reading [LMIC] makes no call. *)
Lemma calls_of_LMIC (k : lmic_t -> proc unit) (L : lmic_t) :
  calls_of (x <- LMIC ;; k x)%proc L = calls_of (k L) L.
Proof.
  unfold calls_of, bind, LMIC.
  destruct (k L L) as [[[] t]|]; reflexivity.
Qed.

Lemma calls_of_array_get {A : Type} (a : list A) (i : Z) (x : A)
    (k : A -> proc unit) (L : lmic_t) :
  0 <= i -> nth_error a (Z.to_nat i) = Some x ->
  calls_of (y <- array_get a i ;; k y)%proc L = calls_of (k x) L.
Proof.
  intros Hi Hx. unfold calls_of, bind, array_get.
  destruct (Z.ltb_spec i 0); [lia|]. rewrite Hx. unfold ret.
  destruct (k x L) as [[[] t]|]; reflexivity.
Qed.

End ProcFacts.

Module SketchFacts.
Import CInt Packed CIntFacts PackedFacts GPSFacts ProcFacts.

Lemma EventName_length : length EventName = Z.to_nat EventCount.
Proof. reflexivity. Qed.

(** Under the guard of [onEvent] the read of [EventName] is inside the
    array. *)
Lemma EventName_guarded (ev : Z) :
  1 <= ev <= EventCount ->
  exists name : c_str, nth_error EventName (Z.to_nat (ev - 1)) = Some name.
Proof.
  intros Hev.
  destruct (nth_error EventName (Z.to_nat (ev - 1))) as [name|] eqn:E.
  - now exists name.
  - apply nth_error_None in E. rewrite EventName_length in E.
    unfold EventCount in *. lia.
Qed.

Lemma filter_not_log (t : list call) :
  forallb is_log t = true -> filter (fun c => negb (is_log c)) t = [].
Proof.
  induction t as [|c t IH]; cbn [forallb filter]; [reflexivity|].
  intros H. apply andb_prop in H as [Hc Ht]. rewrite Hc. cbn [negb].
  now apply IH.
Qed.

Lemma sent_is_send (c : call) (bs : list Z) :
  sent c = Some bs -> is_send c = true.
Proof. destruct c; (discriminate || reflexivity). Qed.

Lemma sent_send (port : Z) (data : list Z) (dlen : Z) (confirmed : bool)
    (bs : list Z) :
  sent (LMIC_setTxData2 port data dlen confirmed) = Some bs ->
  bs = firstn (Z.to_nat dlen) data.
Proof. cbn [sent]. now intros [= <-]. Qed.

Section WithLmic.

Context {lmic : lmic_h} (bo : byte_order).

Lemma sendRawData_calls (data : list Z) (len : Z) (confirm : bool)
    (L : lmic_t) :
  calls_of (sendRawData data len confirm) L =
  Some (if truthy (Z.land (opmode L) OP_TXRXPEND) then []
        else [ LMIC_setTxData2 1 data len confirm;
               Serial_print (Some "Sending ");
               Serial_print_dec len;
               Serial_println (Some " bytes of data") ]).
Proof.
  unfold sendRawData. rewrite calls_of_LMIC.
  destruct (truthy _); reflexivity.
Qed.

Lemma sendTDFData_calls (tdf : GPS_TDF) (confirm : bool) (L : lmic_t) :
  calls_of (sendTDFData bo tdf confirm) L =
  Some (if truthy (Z.land (opmode L) OP_TXRXPEND) then []
        else [ LMIC_setTxData2 1 (struct_repr bo GPS_TDF_members tdf) 24
                 confirm;
               Serial_print (Some "Sending ");
               Serial_print_dec 24;
               Serial_println (Some " bytes of data") ]).
Proof. unfold sendTDFData. now rewrite sendRawData_calls. Qed.

(** What [sendTDFData] hands over is the whole object. *)
Lemma sendTDFData_sent (tdf : GPS_TDF) (confirm : bool) (L : lmic_t)
    (t : list call) (c : call) (bs : list Z) :
  calls_of (sendTDFData bo tdf confirm) L = Some t ->
  In c t -> sent c = Some bs ->
  bs = struct_repr bo GPS_TDF_members tdf.
Proof.
  rewrite sendTDFData_calls.
  remember (struct_repr bo GPS_TDF_members tdf) as obj eqn:Hobj.
  intros [= <-] Hin Hsent.
  destruct (truthy _); [contradiction|].
  destruct Hin as [<-|[<-|[<-|[<-|[]]]]]; try discriminate.
  apply sent_send in Hsent. subst bs obj.
  apply firstn_all2. rewrite struct_repr_length. cbn. lia.
Qed.

Lemma DoSendData_calls (L : lmic_t) :
  calls_of (DoSendData bo) L = calls_of (sendTDFData bo dummy_record true) L.
Proof.
  unfold DoSendData, calls_of, bind. rewrite dummy_record_eq.
  destruct (sendTDFData bo dummy_record true L) as [[[] t]|]; reflexivity.
Qed.

Lemma DoSendData_defined (L : lmic_t) :
  exists sub, calls_of (DoSendData bo) L = Some sub.
Proof. rewrite DoSendData_calls, sendTDFData_calls. eauto. Qed.

(** The diagnostic line of [OnTransferComplete]. *)
Lemma OnTransferComplete_calls (L : lmic_t) (sub : list call) :
  calls_of (DoSendData bo) L = Some sub ->
  calls_of (OnTransferComplete bo) L =
  Some (Serial_println (Some "Transfer Complete")
        :: (if truthy (Z.land (txrxFlags L) TXRX_ACK) then
              [Serial_println (Some "Received ACK")]
            else if truthy (Z.land (txrxFlags L) TXRX_NACK) then
              [Serial_println (Some "No ACK received")]
            else [])
        ++ delay 5000 :: sub).
Proof.
  intros Hsub. unfold OnTransferComplete.
  rewrite calls_of_call_seq, calls_of_LMIC, calls_of_seq, calls_of_call_seq.
  rewrite Hsub.
  destruct (truthy (Z.land (txrxFlags L) TXRX_ACK)); [reflexivity|].
  destruct (truthy (Z.land (txrxFlags L) TXRX_NACK)); reflexivity.
Qed.

Lemma OnJoinComplete_calls (L : lmic_t) (sub : list call) :
  calls_of (DoSendData bo) L = Some sub ->
  calls_of (OnJoinComplete bo) L
  = Some (Serial_println (Some "Joined network") :: sub).
Proof.
  intros Hsub. unfold OnJoinComplete. now rewrite calls_of_call_seq, Hsub.
Qed.

(** The lines [onEvent] prints under [PRINT_EVENTS]. *)
Lemma onEvent_calls (ev : Z) (L : lmic_t) (k : proc unit) :
  calls_of
    (do_call (Serial_print (Some "Event: ")) ;;
     (if (1 <=? ev) && (ev <=? EventCount) then
        name <- array_get EventName (ev - 1) ;;
        do_call (Serial_println name)
      else ret tt) ;;
     k)%proc L
  = option_map
      (app (Serial_print (Some "Event: ")
            :: (if (1 <=? ev) && (ev <=? EventCount)
                then [Serial_println (nth (Z.to_nat (ev - 1)) EventName None)]
                else [])))
      (calls_of k L).
Proof.
  rewrite calls_of_call_seq, calls_of_seq.
  destruct ((1 <=? ev) && (ev <=? EventCount)) eqn:G.
  - apply andb_prop in G as [G1 G2].
    apply Z.leb_le in G1. apply Z.leb_le in G2.
    destruct (EventName_guarded ev (conj G1 G2)) as [name Hname].
    rewrite (calls_of_array_get _ _ name) by (lia || exact Hname).
    rewrite calls_of_do_call.
    replace (nth (Z.to_nat (ev - 1)) EventName None) with name
      by (symmetry; exact (nth_error_nth _ _ None Hname)).
    destruct (calls_of k L); reflexivity.
  - rewrite calls_of_ret. destruct (calls_of k L); reflexivity.
Qed.

Lemma event_lines_log (ev : Z) :
  forallb is_log
    (Serial_print (Some "Event: ")
     :: (if (1 <=? ev) && (ev <=? EventCount)
         then [Serial_println (nth (Z.to_nat (ev - 1)) EventName None)]
         else [])) = true.
Proof. destruct ((1 <=? ev) && (ev <=? EventCount)); reflexivity. Qed.

Lemma onEvent_TXCOMPLETE_calls (L : lmic_t) (sub : list call) :
  calls_of (DoSendData bo) L = Some sub ->
  calls_of (onEvent bo EV_TXCOMPLETE) L =
  Some ((Serial_print (Some "Event: ")
         :: (if (1 <=? EV_TXCOMPLETE) && (EV_TXCOMPLETE <=? EventCount)
             then [Serial_println
                     (nth (Z.to_nat (EV_TXCOMPLETE - 1)) EventName None)]
             else []))
        ++ (Serial_println (Some "Transfer Complete")
            :: (if truthy (Z.land (txrxFlags L) TXRX_ACK) then
                  [Serial_println (Some "Received ACK")]
                else if truthy (Z.land (txrxFlags L) TXRX_NACK) then
                  [Serial_println (Some "No ACK received")]
                else []))
        ++ delay 5000 :: sub).
Proof.
  intros Hsub. unfold onEvent. rewrite onEvent_calls, Z.eqb_refl.
  rewrite (OnTransferComplete_calls L sub Hsub). reflexivity.
Qed.

Lemma ack_line_log (L : lmic_t) :
  forallb is_log
    (if truthy (Z.land (txrxFlags L) TXRX_ACK) then
       [Serial_println (Some "Received ACK")]
     else if truthy (Z.land (txrxFlags L) TXRX_NACK) then
       [Serial_println (Some "No ACK received")]
     else []) = true.
Proof.
  destruct (truthy (Z.land (txrxFlags L) TXRX_ACK)); [reflexivity|].
  destruct (truthy (Z.land (txrxFlags L) TXRX_NACK)); reflexivity.
Qed.

Lemma DoSendData_no_delay (L : lmic_t) (sub : list call) :
  calls_of (DoSendData bo) L = Some sub ->
  forallb (fun c => negb (is_delay c)) sub = true.
Proof.
  rewrite DoSendData_calls, sendTDFData_calls.
  remember (struct_repr bo GPS_TDF_members dummy_record) as obj.
  intros [= <-].
  destruct (truthy (Z.land (opmode L) OP_TXRXPEND)); reflexivity.
Qed.

Lemma log_only_uplink (t : list call) :
  forallb is_log t = true -> Forall (only_uplink bo) t.
Proof.
  rewrite forallb_forall, Forall_forall. intros H c Hc Hs.
  specialize (H c Hc). destruct c; discriminate.
Qed.

Lemma DoSendData_only_uplink (L : lmic_t) (sub : list call) :
  calls_of (DoSendData bo) L = Some sub -> Forall (only_uplink bo) sub.
Proof.
  rewrite DoSendData_calls, sendTDFData_calls. intros [= <-].
  destruct (truthy _); [constructor|].
  constructor; [intros _; reflexivity|].
  now apply log_only_uplink.
Qed.

(** [onEvent] returns for every event code and every [LMIC], and sends
    nothing but [dummy_record]. *)
Lemma onEvent_only_uplink (ev : Z) (L : lmic_t) :
  exists t, calls_of (onEvent bo ev) L = Some t /\ Forall (only_uplink bo) t.
Proof.
  destruct (DoSendData_defined L) as [sub Hsub].
  pose proof (DoSendData_only_uplink L sub Hsub) as Hu.
  pose proof (log_only_uplink _ (event_lines_log ev)) as Hl.
  unfold onEvent. rewrite onEvent_calls.
  destruct (ev =? EV_TXCOMPLETE);
    [|destruct (ev =? EV_JOINED); [|destruct (ev =? EV_JOINING)]].
  - rewrite (OnTransferComplete_calls L sub Hsub). cbn [option_map].
    eexists; split; [reflexivity|].
    apply Forall_app; split; [exact Hl|].
    constructor; [intros [=]|].
    apply Forall_app; split.
    + apply log_only_uplink.
      destruct (truthy (Z.land (txrxFlags L) TXRX_ACK)); [reflexivity|].
      destruct (truthy (Z.land (txrxFlags L) TXRX_NACK)); reflexivity.
    + constructor; [intros [=] | exact Hu].
  - rewrite (OnJoinComplete_calls L sub Hsub). cbn [option_map].
    eexists; split; [reflexivity|].
    apply Forall_app; split; [exact Hl|].
    constructor; [intros [=] | exact Hu].
  - rewrite calls_of_ret. cbn [option_map].
    eexists; split; [reflexivity|].
    apply Forall_app; split; [exact Hl | constructor].
  - rewrite calls_of_do_call. cbn [option_map].
    eexists; split; [reflexivity|].
    apply Forall_app; split; [exact Hl|].
    constructor; [intros [=] | constructor].
Qed.

Lemma deliver_only_uplink (ds : list delivery) :
  exists t, deliver bo ds = Some t /\ Forall (only_uplink bo) t.
Proof.
  induction ds as [|[ev L] ds [t' [Ht' Hu']]]; cbn [deliver].
  - exists []. split; [reflexivity | constructor].
  - destruct (onEvent_only_uplink ev L) as [t [Ht Hu]].
    rewrite Ht, Ht'. exists (t ++ t'). split; [reflexivity|].
    apply Forall_app; now split.
Qed.

Lemma loops_only_uplink (iterations : list (list delivery)) :
  exists t, loops bo iterations = Some t /\ Forall (only_uplink bo) t.
Proof.
  induction iterations as [|ds its [t' [Ht' Hu']]]; cbn [loops].
  - exists []. split; [reflexivity | constructor].
  - destruct (deliver_only_uplink ds) as [t [Ht Hu]].
    unfold loop. rewrite Ht, Ht'. cbn [option_map].
    exists ((os_runloop_once :: t) ++ t'). split; [reflexivity|].
    apply Forall_app; split; [|exact Hu'].
    constructor; [intros [=] | exact Hu].
Qed.

Lemma wait_serial_calls (polls : nat) (L : lmic_t) :
  calls_of (wait_serial polls) L = Some (repeat (delay 1) polls).
Proof.
  induction polls as [|k IH]; cbn [wait_serial repeat]; [reflexivity|].
  now rewrite calls_of_call_seq, IH.
Qed.

Lemma setup_calls (polls : nat) (L : lmic_t) :
  calls_of (setup polls) L =
  Some (Serial_begin 9600 :: repeat (delay 1) polls
        ++ [ Serial_println (Some "Started program");
             Serial_println (Some "Setting up LMIC");
             os_init; LMIC_reset; LMIC_startJoining ]).
Proof.
  unfold setup. rewrite calls_of_call_seq, calls_of_seq, wait_serial_calls.
  reflexivity.
Qed.

(** The sketch makes its calls, whatever LMIC delivers, and all it ever
    sends is [dummy_record]. *)
Lemma sketch_only_uplink (polls : nat) (L0 : lmic_t)
    (iterations : list (list delivery)) :
  exists t,
    sketch bo polls L0 iterations = Some t /\ Forall (only_uplink bo) t.
Proof.
  destruct (loops_only_uplink iterations) as [t' [Ht' Hu']].
  unfold sketch. rewrite setup_calls, Ht'.
  eexists; split; [reflexivity|].
  apply Forall_app; split; [|exact Hu'].
  constructor; [intros [=]|].
  apply Forall_app; split.
  - apply Forall_forall. intros c Hc. apply repeat_spec in Hc. subst c.
    intros [=].
  - repeat (constructor; [intros [=]|]). constructor.
Qed.

End WithLmic.

End SketchFacts.

(** * The sketch against its specification *)

Section Specification.
Import CInt Packed CIntFacts PackedFacts GPSFacts ProcFacts SketchFacts.

Context {lmic : lmic_h} (bo : byte_order).


(** C3. On [EV_TXCOMPLETE], whatever [LMIC.txrxFlags] says of the
    acknowledgement, [onEvent] writes to the console, then calls
    [delay(5000)] once, then does what [DoSendData] does, which has no
    delay of its own: one wait of 5000 ms, and it precedes the
    submission. *)
Theorem txcomplete_waits_then_submits (L : lmic_t) :
  exists log sub,
    calls_of (onEvent bo EV_TXCOMPLETE) L = Some (log ++ delay 5000 :: sub)
    /\ forallb is_log log = true
    /\ calls_of (DoSendData bo) L = Some sub
    /\ forallb (fun c => negb (is_delay c)) sub = true.
Proof.
  destruct (DoSendData_defined bo L) as [sub Hsub].
  rewrite (onEvent_TXCOMPLETE_calls bo L sub Hsub).
  eexists (_ ++ _), sub. split; [|split; [|split]].
  - rewrite <- app_assoc. reflexivity.
  - rewrite forallb_app, event_lines_log. cbn [forallb andb is_log].
    apply ack_line_log.
  - exact Hsub.
  - exact (DoSendData_no_delay bo L sub Hsub).
Qed.

(** C4. On [EV_JOINED], [onEvent] writes to the console and then does
    what [DoSendData] does, with no [delay] anywhere: when no
    transmission is pending that is one call of [LMIC_setTxData2], with
    the confirmed flag set. *)
Theorem joined_submits_without_delay (L : lmic_t) :
  exists log sub,
    calls_of (onEvent bo EV_JOINED) L = Some (log ++ sub)
    /\ forallb is_log log = true
    /\ calls_of (DoSendData bo) L = Some sub
    /\ forallb (fun c => negb (is_delay c)) (log ++ sub) = true
    /\ filter is_send sub =
       if truthy (Z.land (opmode L) OP_TXRXPEND) then []
       else [LMIC_setTxData2 1 (struct_repr bo GPS_TDF_members dummy_record)
               24 true].
Proof.
  destruct (DoSendData_defined bo L) as [sub Hsub].
  assert (Hne : (EV_JOINED =? EV_TXCOMPLETE) = false).
  { apply Z.eqb_neq. intros Heq.
    pose proof case_labels_distinct as Hnd.
    apply NoDup_cons_iff in Hnd as [Hnd _]. apply Hnd. left. now symmetry. }
  unfold onEvent. rewrite onEvent_calls, Hne, Z.eqb_refl.
  rewrite (OnJoinComplete_calls bo L sub Hsub).
  set (lines := Serial_print (Some "Event: ") :: _).
  cbn [option_map].
  exists (lines ++ [Serial_println (Some "Joined network")]), sub.
  assert (Hlog : forallb is_log
                   (lines ++ [Serial_println (Some "Joined network")]) = true).
  { rewrite forallb_app. unfold lines. rewrite event_lines_log. reflexivity. }
  pose proof Hsub as Hshape.
  rewrite DoSendData_calls, sendTDFData_calls in Hshape.
  injection Hshape as Hshape.
  split; [|split; [|split; [|split]]].
  - rewrite <- app_assoc. reflexivity.
  - exact Hlog.
  - exact Hsub.
  - rewrite forallb_app. apply andb_true_intro. split.
    + rewrite forallb_forall in *. intros c Hc.
      specialize (Hlog c Hc). destruct c; (discriminate || reflexivity).
    + rewrite <- Hshape. destruct (truthy _); reflexivity.
  - rewrite <- Hshape. destruct (truthy _); reflexivity.
Qed.

(** C7. For an event code other than [EV_TXCOMPLETE], [EV_JOINED] and
    [EV_JOINING], and whatever integer it is, [onEvent] returns, and its
    calls are the [PRINT_EVENTS] lines followed by the line
    ["unhandled event"]: writes to the console only, so no call into
    LMIC, no [delay] and no submission. *)
Theorem other_events_are_only_logged (ev : Z) (L : lmic_t) :
  ev <> EV_TXCOMPLETE -> ev <> EV_JOINED -> ev <> EV_JOINING ->
  exists log,
    calls_of (onEvent bo ev) L
    = Some (log ++ [Serial_println (Some "unhandled event")])
    /\ log = Serial_print (Some "Event: ")
             :: (if (1 <=? ev) && (ev <=? EventCount)
                 then [Serial_println
                         (nth (Z.to_nat (ev - 1)) EventName None)]
                 else [])
    /\ forallb is_log (log ++ [Serial_println (Some "unhandled event")])
       = true.
Proof.
  intros H1 H2 H3.
  apply Z.eqb_neq in H1. apply Z.eqb_neq in H2. apply Z.eqb_neq in H3.
  unfold onEvent. rewrite onEvent_calls, H1, H2, H3, calls_of_do_call.
  cbn [option_map]. eexists. split; [reflexivity|]. split; [reflexivity|].
  rewrite forallb_app, event_lines_log. reflexivity.
Qed.

(** C1, as amended. Whatever record [sendTDFData] is given, the octets
    handed to [LMIC_setTxData2] are 24: the 2 octets of the SID, then the
    22 octets of the data. *)
Theorem sendTDFData_hands_24_octets (tdf : GPS_TDF) (confirm : bool)
    (L : lmic_t) (t : list call) (c : call) (bs : list Z) :
  calls_of (sendTDFData bo tdf confirm) L = Some t ->
  In c t -> sent c = Some bs ->
  bs = object_repr bo int16_t (GPS_SID tdf)
       ++ struct_repr bo GPS_TDF_DATA_members (Data tdf)
  /\ length (object_repr bo int16_t (GPS_SID tdf)) = 2%nat
  /\ length (struct_repr bo GPS_TDF_DATA_members (Data tdf)) = 22%nat
  /\ length bs = 24%nat.
Proof.
  intros Ht Hin Hsent.
  rewrite (sendTDFData_sent bo tdf confirm L t c bs Ht Hin Hsent).
  rewrite <- GPS_TDF_repr. repeat split.
  - apply object_repr_length.
  - apply struct_repr_length.
  - apply struct_repr_length.
Qed.

(** C5. The octets [sendTDFData] hands to [LMIC_setTxData2] are the
    object itself, all of it; the members start at the offsets 0, 2, 6,
    10, 14, 16, 18, 20, 21, 22 and 23, each where the one before it ends,
    in the order of declaration, and a read of a member's type at its
    offset gives the member. *)
Theorem wire_octets_are_the_packed_object (tdf : GPS_TDF) (confirm : bool)
    (L : lmic_t) (t : list call) (c : call) (bs : list Z) :
  well_typed GPS_TDF_members tdf = true ->
  calls_of (sendTDFData bo tdf confirm) L = Some t ->
  In c t -> sent c = Some bs ->
  bs = struct_repr bo GPS_TDF_members tdf
  /\ map (fun m => (m_name m, offsetof GPS_TDF_members (m_name m),
                    sizeof (m_type m))) GPS_TDF_members
     = [ ("GPS_SID", 0, 2); ("Data.lon", 2, 4); ("Data.lat", 6, 4);
         ("Data.height", 10, 4); ("Data.accuracy", 14, 2);
         ("Data.heading", 16, 2); ("Data.speed", 18, 2);
         ("Data.pdop", 20, 1); ("Data.fix", 21, 1); ("Data.numsv", 22, 1);
         ("Data.flags", 23, 1) ]%nat
  /\ length bs = (23 + 1)%nat
  /\ load bo int16_t 0 bs = Some (GPS_SID tdf)
  /\ load bo int32_t 2 bs = Some (lon (Data tdf))
  /\ load bo int32_t 6 bs = Some (lat (Data tdf))
  /\ load bo uint32_t 10 bs = Some (height (Data tdf))
  /\ load bo uint16_t 14 bs = Some (accuracy (Data tdf))
  /\ load bo uint16_t 16 bs = Some (heading (Data tdf))
  /\ load bo uint16_t 18 bs = Some (speed (Data tdf))
  /\ load bo uint8_t 20 bs = Some (pdop (Data tdf))
  /\ load bo uint8_t 21 bs = Some (fix_ (Data tdf))
  /\ load bo uint8_t 22 bs = Some (numsv (Data tdf))
  /\ load bo uint8_t 23 bs = Some (flags (Data tdf)).
Proof.
  intros Hwt Ht Hin Hsent.
  rewrite (sendTDFData_sent bo tdf confirm L t c bs Ht Hin Hsent).
  split; [reflexivity|]. split; [reflexivity|].
  split; [apply struct_repr_length|].
  pose (nowhere := mk_member (S := GPS_TDF) "" uint8_t (fun _ => 0)).
  assert (Hm : forall i, (i < 11)%nat ->
             let m := nth i GPS_TDF_members nowhere in
             load bo (m_type m) (offsetof GPS_TDF_members (m_name m))
               (struct_repr bo GPS_TDF_members tdf) = Some (m_get m tdf)).
  { intros i Hi m. apply load_GPS_TDF; [exact Hwt|]. now apply nth_In. }
  repeat split.
  - exact (Hm 0%nat ltac:(lia)).
  - exact (Hm 1%nat ltac:(lia)).
  - exact (Hm 2%nat ltac:(lia)).
  - exact (Hm 3%nat ltac:(lia)).
  - exact (Hm 4%nat ltac:(lia)).
  - exact (Hm 5%nat ltac:(lia)).
  - exact (Hm 6%nat ltac:(lia)).
  - exact (Hm 7%nat ltac:(lia)).
  - exact (Hm 8%nat ltac:(lia)).
  - exact (Hm 9%nat ltac:(lia)).
  - exact (Hm 10%nat ltac:(lia)).
Qed.

(** C6. The record of an uplink is built anew by [DoSendData] each
    time it runs: the constructor, by its [memset], leaves every member
    of [Data] zero and the SID 281, then [lat] alone is assigned. On
    [EV_TXCOMPLETE], whatever [LMIC.txrxFlags] says, the calls of
    [onEvent] other than console lines are [delay(5000)] and then, unless
    a transmission is pending, one [LMIC_setTxData2] of the record with
    [lat] 1234567890 and zero elsewhere: a denied acknowledgement adds
    its console line and no send. *)
Theorem denied_ack_sends_nothing_again (L : lmic_t) :
  GPS_TDF_ctor bo
  = Some (mk_GPS_TDF 281 (mk_GPS_TDF_DATA 0 0 0 0 0 0 0 0 0 0))
  /\ DoSendData_tdf bo L
     = Some (mk_GPS_TDF 281 (mk_GPS_TDF_DATA 0 1234567890 0 0 0 0 0 0 0 0),
             [])
  /\ exists t,
       calls_of (onEvent bo EV_TXCOMPLETE) L = Some t
       /\ filter (fun c => negb (is_log c)) t
          = delay 5000
            :: (if truthy (Z.land (opmode L) OP_TXRXPEND) then []
                else [LMIC_setTxData2 1
                        (struct_repr bo GPS_TDF_members
                           (mk_GPS_TDF 281
                              (mk_GPS_TDF_DATA 0 1234567890 0 0 0 0 0 0 0 0)))
                        24 true])
       /\ (truthy (Z.land (txrxFlags L) TXRX_ACK) = false ->
           truthy (Z.land (txrxFlags L) TXRX_NACK) = true ->
           In (Serial_println (Some "No ACK received")) t).
Proof.
  split; [apply GPS_TDF_ctor_eq|].
  split; [apply dummy_record_eq|].
  destruct (DoSendData_defined bo L) as [sub Hsub].
  rewrite (onEvent_TXCOMPLETE_calls bo L sub Hsub).
  eexists. split; [reflexivity|]. split.
  - rewrite !filter_app.
    rewrite (filter_not_log _ (event_lines_log EV_TXCOMPLETE)).
    cbn [filter is_log negb]. rewrite (filter_not_log _ (ack_line_log L)).
    cbn [app filter is_log negb]. f_equal.
    rewrite DoSendData_calls, sendTDFData_calls in Hsub.
    change (mk_GPS_TDF 281 (mk_GPS_TDF_DATA 0 1234567890 0 0 0 0 0 0 0 0))
      with dummy_record.
    remember (struct_repr bo GPS_TDF_members dummy_record) as obj.
    injection Hsub as <-.
    destruct (truthy (Z.land (opmode L) OP_TXRXPEND)); reflexivity.
  - intros Hack Hnack. rewrite Hack, Hnack.
    apply in_or_app. right. apply in_or_app. left. right. left. reflexivity.
Qed.

(** C9. In every run of the sketch, from reset through any iterations
    of [loop()] with any events, every sequence of octets handed to
    [LMIC_setTxData2] begins with the two octets of the [int16_t] 281,
    and a read of [GPS_SID] there gives 281. *)
Theorem every_header_is_281 (polls : nat) (L0 : lmic_t)
    (iterations : list (list delivery)) :
  exists t,
    sketch bo polls L0 iterations = Some t
    /\ forall c bs, In c t -> sent c = Some bs ->
         firstn 2 bs = object_repr bo int16_t 281
         /\ load bo int16_t 0 bs = Some 281.
Proof.
  destruct (sketch_only_uplink bo polls L0 iterations) as [t [Ht Hu]].
  exists t. split; [exact Ht|]. intros c bs Hin Hsent.
  rewrite Forall_forall in Hu.
  pose proof (Hu c Hin (sent_is_send c bs Hsent)) as Hc. subst c.
  apply sent_send in Hsent. subst bs.
  destruct bo; split; reflexivity.
Qed.

(** C10. The constructor, by its [memset], leaves every member of
    [Data] zero, and in every run of the sketch every call of
    [LMIC_setTxData2] is the same call: port 1, the 24 octets of the
    record whose [lat] is 1234567890 and whose other data members are
    zero, confirmed. *)
Theorem every_uplink_is_the_same (polls : nat) (L0 : lmic_t)
    (iterations : list (list delivery)) :
  GPS_TDF_DATA_ctor bo = Some (mk_GPS_TDF_DATA 0 0 0 0 0 0 0 0 0 0)
  /\ exists t,
    sketch bo polls L0 iterations = Some t
    /\ forall c, In c t -> is_send c = true ->
         c = LMIC_setTxData2 1 (struct_repr bo GPS_TDF_members dummy_record)
               24 true
         /\ exists bs,
              sent c = Some bs
              /\ load bo int16_t 0 bs = Some 281
              /\ GPS_TDF_DATA_of_octets bo (skipn 2 bs)
                 = Some (mk_GPS_TDF_DATA 0 1234567890 0 0 0 0 0 0 0 0).
Proof.
  split; [apply GPS_TDF_DATA_ctor_zero|].
  destruct (sketch_only_uplink bo polls L0 iterations) as [t [Ht Hu]].
  exists t. split; [exact Ht|]. intros c Hin Hsend.
  rewrite Forall_forall in Hu.
  pose proof (Hu c Hin Hsend) as Hc. subst c.
  split; [reflexivity|].
  eexists. split; [reflexivity|].
  destruct bo; split; reflexivity.
Qed.

End Specification.

(** C8. Under the guard [1 <= ev <= EventCount] every read of
    [EventName] is inside the array, but not every element is a name:
    the fourteenth is the two last names run together, and the
    fifteenth, the one read for the event code 15, is the null pointer,
    which [onEvent] passes to [Serial.println]. *)
Theorem EventName_of_15_is_null (bo : CInt.byte_order) (L : lmic_t) :
  length EventName = 15%nat
  /\ nth_error EventName 13 = Some (Some "Link DeadLink Alive")
  /\ array_get EventName (15 - 1) L = Some (None, [])
  /\ calls_of (onEvent (lmic := arduino_lmic) bo 15) L
     = Some [ Serial_print (Some "Event: ");
              Serial_println None;
              Serial_println (Some "unhandled event") ].
Proof. repeat split. Qed.


(** C1, as stated, fails: with no transmission pending, [DoSendData]
    hands 24 octets to [LMIC_setTxData2], not 23; the 22 that follow the
    SID are the data. *)
Lemma DoSendData_hands_24_octets_not_23 :
  let data := [25; 1; 0; 0; 0; 0; 210; 2; 150; 73; 0; 0; 0; 0; 0; 0; 0; 0;
               0; 0; 0; 0; 0; 0] in
  calls_of (DoSendData (lmic := arduino_lmic) CInt.LittleEndian)
    (mk_lmic_t 0 0)
  = Some [ LMIC_setTxData2 1 data 24 true;
           Serial_print (Some "Sending ");
           Serial_print_dec 24;
           Serial_println (Some " bytes of data") ]
  /\ sent (LMIC_setTxData2 1 data 24 true) = Some data
  /\ length data = 24%nat
  /\ length data <> 23%nat
  /\ length (skipn 2 data) = 22%nat
  /\ length (skipn 2 data) <> 21%nat.
Proof. repeat split; discriminate. Qed.

(** ** Instances of the statements at arduino-lmic *)


Lemma other_events_are_only_logged_witness :
  (8 <> EV_TXCOMPLETE /\ 8 <> EV_JOINED /\ 8 <> EV_JOINING)
  /\ exists log,
       calls_of (onEvent CInt.LittleEndian 8) (mk_lmic_t 0 0)
       = Some (log ++ [Serial_println (Some "unhandled event")])
       /\ log = [Serial_print (Some "Event: ");
                 Serial_println (Some "Join Failed")]
       /\ forallb is_log (log ++ [Serial_println (Some "unhandled event")])
          = true.
Proof.
  split; [repeat split; discriminate|].
  apply (other_events_are_only_logged CInt.LittleEndian 8 (mk_lmic_t 0 0));
    discriminate.
Defined.

Lemma sendTDFData_hands_24_octets_witness :
  let L := mk_lmic_t 0 0 in
  let data := Packed.struct_repr CInt.LittleEndian GPS_TDF_members
                dummy_record in
  let c := LMIC_setTxData2 1 data 24 true in
  let t := [ c; Serial_print (Some "Sending "); Serial_print_dec 24;
             Serial_println (Some " bytes of data") ] in
  (calls_of (sendTDFData CInt.LittleEndian dummy_record true) L = Some t
   /\ In c t /\ sent c = Some data)
  /\ length data = 24%nat.
Proof.
  intros L data c t.
  assert (Ht : calls_of (sendTDFData CInt.LittleEndian dummy_record true) L
               = Some t) by reflexivity.
  assert (Hin : In c t) by (left; reflexivity).
  assert (Hsent : sent c = Some data) by reflexivity.
  split; [repeat split; assumption|].
  apply (sendTDFData_hands_24_octets CInt.LittleEndian dummy_record true
           L t c data Ht Hin Hsent).
Defined.

Lemma wire_octets_are_the_packed_object_witness :
  let L := mk_lmic_t 0 0 in
  let data := Packed.struct_repr CInt.LittleEndian GPS_TDF_members
                dummy_record in
  let c := LMIC_setTxData2 1 data 24 true in
  let t := [ c; Serial_print (Some "Sending "); Serial_print_dec 24;
             Serial_println (Some " bytes of data") ] in
  (well_typed GPS_TDF_members dummy_record = true
   /\ calls_of (sendTDFData CInt.LittleEndian dummy_record true) L = Some t
   /\ In c t /\ sent c = Some data)
  /\ CInt.load CInt.LittleEndian CInt.int32_t 6 data = Some 1234567890.
Proof.
  intros L data c t.
  assert (Hwt : well_typed GPS_TDF_members dummy_record = true)
    by reflexivity.
  assert (Ht : calls_of (sendTDFData CInt.LittleEndian dummy_record true) L
               = Some t) by reflexivity.
  assert (Hin : In c t) by (left; reflexivity).
  assert (Hsent : sent c = Some data) by reflexivity.
  split; [repeat split; assumption|].
  apply (wire_octets_are_the_packed_object CInt.LittleEndian dummy_record
           true L t c data Hwt Ht Hin Hsent).
Defined.

Lemma denied_ack_sends_nothing_again_witness :
  let L := mk_lmic_t 0 0x40 in
  (truthy (Z.land (txrxFlags L) TXRX_ACK) = false
   /\ truthy (Z.land (txrxFlags L) TXRX_NACK) = true)
  /\ exists t,
       calls_of (onEvent CInt.LittleEndian EV_TXCOMPLETE) L = Some t
       /\ In (Serial_println (Some "No ACK received")) t.
Proof.
  intros L. split; [split; reflexivity|].
  destruct (denied_ack_sends_nothing_again CInt.LittleEndian L)
    as (_ & _ & t & Ht & _ & Hnack).
  exists t. split; [exact Ht|]. apply Hnack; reflexivity.
Defined.

Lemma every_header_is_281_witness :
  let run := [[]; [(EV_JOINING, mk_lmic_t 0 0)]; [(EV_JOINED, mk_lmic_t 0 0)];
              [(EV_TXCOMPLETE, mk_lmic_t 0 0x40)]] in
  let data := Packed.struct_repr CInt.LittleEndian GPS_TDF_members
                dummy_record in
  exists t,
    sketch CInt.LittleEndian 2 (mk_lmic_t 0 0) run = Some t
    /\ In (LMIC_setTxData2 1 data 24 true) t
    /\ CInt.load CInt.LittleEndian CInt.int16_t 0 data = Some 281.
Proof.
  intros run data.
  destruct (every_header_is_281 CInt.LittleEndian 2 (mk_lmic_t 0 0) run)
    as (t & Ht & Hall).
  exists t. split; [exact Ht|].
  assert (Hin : In (LMIC_setTxData2 1 data 24 true) t).
  { assert (Hsome : forall u, Some u = Some t ->
                      In (LMIC_setTxData2 1 data 24 true) u ->
                      In (LMIC_setTxData2 1 data 24 true) t)
      by (intros u [= ->]; trivial).
    apply (Hsome _ Ht). vm_compute. tauto. }
  split; [exact Hin|].
  apply (Hall _ data Hin). reflexivity.
Defined.

Lemma every_uplink_is_the_same_witness :
  let run := [[(EV_JOINED, mk_lmic_t 0 0)];
              [(EV_TXCOMPLETE, mk_lmic_t 0 0x80)];
              [(EV_TXCOMPLETE, mk_lmic_t 0 0x40)]] in
  let c := LMIC_setTxData2 1
             [25; 1; 0; 0; 0; 0; 210; 2; 150; 73; 0; 0; 0; 0; 0; 0; 0; 0;
              0; 0; 0; 0; 0; 0] 24 true in
  exists t,
    sketch CInt.LittleEndian 0 (mk_lmic_t 0 0) run = Some t
    /\ filter is_send t = [c; c; c].
Proof.
  intros run c.
  destruct (every_uplink_is_the_same CInt.LittleEndian 0 (mk_lmic_t 0 0) run)
    as (_ & t & Ht & _).
  exists t. split; [exact Ht|].
  assert (Hsome : forall u, Some u = Some t ->
                    filter is_send u = [c; c; c] ->
                    filter is_send t = [c; c; c])
    by (intros u [= ->]; trivial).
  apply (Hsome _ Ht). reflexivity.
Defined.

(** * Further properties of the sketch *)

(** ** The record and its octets *)

Module RecordFacts.
Import CInt Packed CIntFacts PackedFacts GPSFacts.

Lemma GPS_TDF_DATA_member_names_distinct :
  NoDup (map m_name GPS_TDF_DATA_members).
Proof.
  cbn [map GPS_TDF_DATA_members m_name].
  repeat (apply NoDup_cons; [cbn [In]; intuition discriminate|]).
  apply NoDup_nil.
Qed.

Lemma load_GPS_TDF_DATA (bo : byte_order) (d : GPS_TDF_DATA)
    (m : member GPS_TDF_DATA) :
  well_typed GPS_TDF_DATA_members d = true -> In m GPS_TDF_DATA_members ->
  load bo (m_type m) (offsetof GPS_TDF_DATA_members (m_name m))
    (struct_repr bo GPS_TDF_DATA_members d)
  = Some (m_get m d).
Proof.
  intros Hwt Hin.
  rewrite (load_member bo _ _ _ GPS_TDF_DATA_member_names_distinct Hin).
  f_equal. apply wrap_in_range.
  - cbn in Hin. intuition (subst; discriminate).
  - exact (well_typed_member _ _ _ Hwt Hin).
Qed.

Lemma wrap_add_modulus (t : ctype) (v : Z) :
  wrap t (v + modulus t) = wrap t v.
Proof.
  unfold wrap. pose proof (modulus_pos t).
  replace (v + modulus t) with (v + 1 * modulus t) by lia.
  now rewrite Z.mod_add by lia.
Qed.

End RecordFacts.

Section RecordProperties.
Import CInt Packed CIntFacts PackedFacts GPSFacts RecordFacts.

Context (bo : byte_order).

(** X1. Reading the members back from the octets of a [GPS_TDF_DATA]
    whose members are within their types gives the same structure, in
    either byte order. *)
Theorem GPS_TDF_DATA_octets_round_trip (d : GPS_TDF_DATA) :
  well_typed GPS_TDF_DATA_members d = true ->
  GPS_TDF_DATA_of_octets bo (struct_repr bo GPS_TDF_DATA_members d) = Some d.
Proof.
  intros Hwt.
  pose (nowhere := mk_member (S := GPS_TDF_DATA) "" uint8_t (fun _ => 0)).
  assert (Hm : forall i, (i < 10)%nat ->
             let m := nth i GPS_TDF_DATA_members nowhere in
             load bo (m_type m) (offsetof GPS_TDF_DATA_members (m_name m))
               (struct_repr bo GPS_TDF_DATA_members d) = Some (m_get m d)).
  { intros i Hi m. apply load_GPS_TDF_DATA; [exact Hwt|]. now apply nth_In. }
  set (obj := struct_repr bo GPS_TDF_DATA_members d) in *.
  pose (at_ := offsetof GPS_TDF_DATA_members).
  assert (H0 : load bo int32_t (at_ "lon") obj = Some (lon d))
    by exact (Hm 0%nat ltac:(lia)).
  assert (H1 : load bo int32_t (at_ "lat") obj = Some (lat d))
    by exact (Hm 1%nat ltac:(lia)).
  assert (H2 : load bo uint32_t (at_ "height") obj = Some (height d))
    by exact (Hm 2%nat ltac:(lia)).
  assert (H3 : load bo uint16_t (at_ "accuracy") obj = Some (accuracy d))
    by exact (Hm 3%nat ltac:(lia)).
  assert (H4 : load bo uint16_t (at_ "heading") obj = Some (heading d))
    by exact (Hm 4%nat ltac:(lia)).
  assert (H5 : load bo uint16_t (at_ "speed") obj = Some (speed d))
    by exact (Hm 5%nat ltac:(lia)).
  assert (H6 : load bo uint8_t (at_ "pdop") obj = Some (pdop d))
    by exact (Hm 6%nat ltac:(lia)).
  assert (H7 : load bo uint8_t (at_ "fix") obj = Some (fix_ d))
    by exact (Hm 7%nat ltac:(lia)).
  assert (H8 : load bo uint8_t (at_ "numsv") obj = Some (numsv d))
    by exact (Hm 8%nat ltac:(lia)).
  assert (H9 : load bo uint8_t (at_ "flags") obj = Some (flags d))
    by exact (Hm 9%nat ltac:(lia)).
  unfold GPS_TDF_DATA_of_octets. fold at_.
  rewrite H0, H1, H2, H3, H4, H5, H6, H7, H8, H9. cbn [and_then].
  destruct d; reflexivity.
Qed.

(** X2. Two records whose members are within their types and whose 24
    octets are the same are the same record: a receiver that reads by
    position recovers the one record that was sent. *)
Theorem GPS_TDF_octets_injective (a b : GPS_TDF) :
  well_typed GPS_TDF_members a = true ->
  well_typed GPS_TDF_members b = true ->
  struct_repr bo GPS_TDF_members a = struct_repr bo GPS_TDF_members b ->
  a = b.
Proof.
  intros Ha Hb Heq.
  pose (nowhere := mk_member (S := GPS_TDF) "" uint8_t (fun _ => 0)).
  assert (Hm : forall i, (i < 11)%nat ->
             m_get (nth i GPS_TDF_members nowhere) a
             = m_get (nth i GPS_TDF_members nowhere) b).
  { intros i Hi.
    assert (Hin : In (nth i GPS_TDF_members nowhere) GPS_TDF_members)
      by now apply nth_In.
    pose proof (load_GPS_TDF bo a _ Ha Hin) as Hla.
    pose proof (load_GPS_TDF bo b _ Hb Hin) as Hlb.
    rewrite Heq in Hla. congruence. }
  clear Ha Hb Heq.
  pose proof (Hm 0%nat ltac:(lia)) as H0. pose proof (Hm 1%nat ltac:(lia)) as H1.
  pose proof (Hm 2%nat ltac:(lia)) as H2. pose proof (Hm 3%nat ltac:(lia)) as H3.
  pose proof (Hm 4%nat ltac:(lia)) as H4. pose proof (Hm 5%nat ltac:(lia)) as H5.
  pose proof (Hm 6%nat ltac:(lia)) as H6. pose proof (Hm 7%nat ltac:(lia)) as H7.
  pose proof (Hm 8%nat ltac:(lia)) as H8. pose proof (Hm 9%nat ltac:(lia)) as H9.
  pose proof (Hm 10%nat ltac:(lia)) as H10. clear Hm.
  destruct a as [sa [a1 a2 a3 a4 a5 a6 a7 a8 a9 a10]].
  destruct b as [sb [b1 b2 b3 b4 b5 b6 b7 b8 b9 b10]].
  cbn in H0, H1, H2, H3, H4, H5, H6, H7, H8, H9, H10.
  congruence.
Qed.

(** X3. The assignment [tdf.Data.lat = v] keeps the members of a record
    within their types whatever integer [v] is, keeps the SID, stores a
    [v] that fits [int32_t] as it is, and stores the same for [v] and
    [v + 2^32]. *)
Theorem lat_assignment_wraps (v : Z) (tdf : GPS_TDF) :
  well_typed GPS_TDF_members tdf = true ->
  well_typed GPS_TDF_members (set_Data_lat v tdf) = true
  /\ GPS_SID (set_Data_lat v tdf) = GPS_SID tdf
  /\ (in_range int32_t v = true -> lat (Data (set_Data_lat v tdf)) = v)
  /\ set_Data_lat (v + 2 ^ 32) tdf = set_Data_lat v tdf.
Proof.
  intros Hwt. split; [|split; [reflexivity|split]].
  - unfold well_typed in *. cbn [forallb GPS_TDF_members GPS_TDF_DATA_members
      map m_type m_get set_Data_lat set_lat Data GPS_SID lon lat height
      accuracy heading speed pdop fix_ numsv flags] in *.
    repeat (apply andb_prop in Hwt as [? Hwt]).
    rewrite (wrap_range int32_t v) by discriminate.
    repeat match goal with
           | H : ?x = true |- context [?x] => rewrite H
           end.
    reflexivity.
  - intros Hr. cbn [set_Data_lat set_lat Data lat].
    apply wrap_in_range; [discriminate | exact Hr].
  - unfold set_Data_lat, set_lat. do 2 f_equal.
    exact (wrap_add_modulus int32_t v).
Qed.

End RecordProperties.

(** ** The event handler *)

Module HandlerFacts.
Import SketchFacts.

Lemma case_labels_differ {lmic : lmic_h} :
  EV_JOINED <> EV_TXCOMPLETE /\ EV_JOINING <> EV_TXCOMPLETE
  /\ EV_JOINING <> EV_JOINED.
Proof.
  pose proof case_labels_distinct as Hnd.
  apply NoDup_cons_iff in Hnd as [H1 Hnd].
  apply NoDup_cons_iff in Hnd as [H2 _].
  cbn [In] in H1, H2. repeat split; intros Heq; intuition congruence.
Qed.

End HandlerFacts.

Section HandlerProperties.
Import CInt Packed ProcFacts SketchFacts HandlerFacts.

Context {lmic : lmic_h} (bo : byte_order).

(** X4. On [EV_JOINING], [onEvent] makes the calls of the
    [PRINT_EVENTS] lines and no other: no line ["unhandled event"], no
    [delay], no send. *)
Theorem joining_prints_its_name_only (L : lmic_t) :
  calls_of (onEvent bo EV_JOINING) L
  = Some (Serial_print (Some "Event: ")
          :: (if (1 <=? EV_JOINING) && (EV_JOINING <=? EventCount)
              then [Serial_println
                      (nth (Z.to_nat (EV_JOINING - 1)) EventName None)]
              else [])).
Proof.
  destruct case_labels_differ as (_ & H1 & H2).
  apply Z.eqb_neq in H1. apply Z.eqb_neq in H2.
  unfold onEvent. rewrite onEvent_calls, H1, H2, Z.eqb_refl, calls_of_ret.
  cbn [option_map]. now rewrite app_nil_r.
Qed.

(** X5. For an event code within the guard of [onEvent] the read of
    [EventName] is inside the array, and what is read is the null pointer
    for the code 15 only. *)
Theorem EventName_read_within_guard (ev : Z) (L : lmic_t) :
  1 <= ev <= EventCount ->
  exists name : c_str,
    array_get EventName (ev - 1) L = Some (name, [])
    /\ (name = None <-> ev = 15).
Proof.
  unfold EventCount. intros Hev.
  assert (Hcases : ev = 1 \/ ev = 2 \/ ev = 3 \/ ev = 4 \/ ev = 5 \/ ev = 6
                   \/ ev = 7 \/ ev = 8 \/ ev = 9 \/ ev = 10 \/ ev = 11
                   \/ ev = 12 \/ ev = 13 \/ ev = 14 \/ ev = 15) by lia.
  repeat (destruct Hcases as [->|Hcases]); [..|subst ev];
    (eexists; split; [reflexivity|]; split; intros Heq;
     [try discriminate Heq; reflexivity | try discriminate Heq; reflexivity]).
Qed.

(** X6. [OnTransferComplete] prints ["Received ACK"] exactly when
    [TXRX_ACK] is set in [LMIC.txrxFlags], and ["No ACK received"] exactly
    when [TXRX_ACK] is clear and [TXRX_NACK] is set: with both bits set the
    acknowledgement wins, and with neither nothing is said of it. *)
Theorem acknowledgement_line (L : lmic_t) :
  exists t,
    calls_of (OnTransferComplete bo) L = Some t
    /\ (In (Serial_println (Some "Received ACK")) t
        <-> truthy (Z.land (txrxFlags L) TXRX_ACK) = true)
    /\ (In (Serial_println (Some "No ACK received")) t
        <-> truthy (Z.land (txrxFlags L) TXRX_ACK) = false
            /\ truthy (Z.land (txrxFlags L) TXRX_NACK) = true).
Proof.
  destruct (DoSendData_defined bo L) as [sub Hsub].
  rewrite (OnTransferComplete_calls bo L sub Hsub).
  rewrite DoSendData_calls, sendTDFData_calls in Hsub.
  remember (struct_repr bo GPS_TDF_members dummy_record) as obj.
  injection Hsub as <-.
  eexists. split; [reflexivity|].
  destruct (truthy (Z.land (txrxFlags L) TXRX_ACK));
    destruct (truthy (Z.land (txrxFlags L) TXRX_NACK));
    destruct (truthy (Z.land (opmode L) OP_TXRXPEND));
    cbn [In app]; split; split; intros H;
    repeat match goal with
           | H : _ \/ _ |- _ => destruct H as [H|H]
           | H : _ /\ _ |- _ => destruct H
           end;
    try discriminate; try contradiction; auto.
Qed.

End HandlerProperties.

Lemma EventName_read_within_guard_witness :
  1 <= 5 <= EventCount
  /\ exists name : c_str,
       array_get EventName (5 - 1) (mk_lmic_t 0 0) = Some (name, [])
       /\ (name = None <-> 5 = 15).
Proof.
  assert (Hg : 1 <= 5 <= EventCount) by (unfold EventCount; lia).
  split; [exact Hg|].
  exact (EventName_read_within_guard 5 (mk_lmic_t 0 0) Hg).
Defined.

(** ** Runs of the sketch *)

Module RunFacts.
Import CInt Packed ProcFacts SketchFacts.

Lemma filter_filter {A : Type} (f g : A -> bool) (l : list A) :
  (forall x, f x = true -> g x = true) ->
  filter f (filter g l) = filter f l.
Proof.
  intros Hfg. induction l as [|x l IH]; cbn [filter]; [reflexivity|].
  destruct (g x) eqn:Hg; cbn [filter].
  - now rewrite IH.
  - destruct (f x) eqn:Hf; [|exact IH].
    apply Hfg in Hf. congruence.
Qed.

Lemma filter_flat_map {A B : Type} (f : B -> bool) (g : A -> list B)
    (l : list A) :
  filter f (flat_map g l) = flat_map (fun x => filter f (g x)) l.
Proof.
  induction l as [|x l IH]; cbn [flat_map]; [reflexivity|].
  now rewrite filter_app, IH.
Qed.

Lemma filter_repeat {A : Type} (f : A -> bool) (x : A) (n : nat) :
  filter f (repeat x n) = if f x then repeat x n else [].
Proof.
  induction n as [|n IH]; cbn [repeat filter]; [now destruct (f x)|].
  rewrite IH. now destruct (f x).
Qed.

Section WithLmic.

Context {lmic : lmic_h} (bo : byte_order).

Lemma DoSendData_effects (L : lmic_t) (sub : list call) :
  calls_of (DoSendData bo) L = Some sub ->
  filter (fun c => negb (is_log c)) sub
  = if truthy (Z.land (opmode L) OP_TXRXPEND) then [] else [uplink bo].
Proof.
  rewrite DoSendData_calls, sendTDFData_calls. unfold uplink.
  remember (struct_repr bo GPS_TDF_members dummy_record) as obj.
  intros [= <-].
  destruct (truthy (Z.land (opmode L) OP_TXRXPEND)); reflexivity.
Qed.

(** What a delivery brings about besides console lines. *)
Lemma onEvent_effects (ev : Z) (L : lmic_t) :
  exists t,
    calls_of (onEvent bo ev) L = Some t
    /\ filter (fun c => negb (is_log c)) t = effects_of bo (ev, L).
Proof.
  destruct (DoSendData_defined bo L) as [sub Hsub].
  pose proof (DoSendData_effects L sub Hsub) as Hfx.
  pose proof (filter_not_log _ (event_lines_log ev)) as Hlines.
  unfold effects_of, is_txcomplete, submits. cbn [fst snd].
  unfold onEvent. rewrite onEvent_calls.
  destruct (ev =? EV_TXCOMPLETE);
    [|destruct (ev =? EV_JOINED); [|destruct (ev =? EV_JOINING)]].
  - rewrite (OnTransferComplete_calls bo L sub Hsub). cbn [option_map].
    eexists. split; [reflexivity|].
    rewrite filter_app, Hlines. cbn [app filter is_log negb].
    rewrite filter_app, (filter_not_log _ (ack_line_log L)).
    cbn [app filter is_log negb orb andb]. rewrite Hfx.
    destruct (truthy (Z.land (opmode L) OP_TXRXPEND)); reflexivity.
  - rewrite (OnJoinComplete_calls bo L sub Hsub). cbn [option_map].
    eexists. split; [reflexivity|].
    rewrite filter_app, Hlines. cbn [app filter is_log negb orb andb].
    rewrite Hfx.
    destruct (truthy (Z.land (opmode L) OP_TXRXPEND)); reflexivity.
  - rewrite calls_of_ret. cbn [option_map].
    eexists. split; [reflexivity|].
    rewrite filter_app, Hlines. reflexivity.
  - rewrite calls_of_do_call. cbn [option_map].
    eexists. split; [reflexivity|].
    rewrite filter_app, Hlines. reflexivity.
Qed.

Lemma deliver_effects (ds : list delivery) :
  exists t,
    deliver bo ds = Some t
    /\ filter (fun c => negb (is_log c)) t = flat_map (effects_of bo) ds.
Proof.
  induction ds as [|[ev L] ds (t' & Ht' & Hfx')]; cbn [deliver flat_map].
  - exists []. split; reflexivity.
  - destruct (onEvent_effects ev L) as (t & Ht & Hfx).
    rewrite Ht, Ht'. exists (t ++ t'). split; [reflexivity|].
    now rewrite filter_app, Hfx, Hfx'.
Qed.

Lemma loops_effects (iterations : list (list delivery)) :
  exists t,
    loops bo iterations = Some t
    /\ filter (fun c => negb (is_log c)) t
       = flat_map (fun ds => os_runloop_once :: flat_map (effects_of bo) ds)
           iterations.
Proof.
  induction iterations as [|ds its (t' & Ht' & Hfx')]; cbn [loops flat_map].
  - exists []. split; reflexivity.
  - destruct (deliver_effects ds) as (t & Ht & Hfx).
    unfold loop. rewrite Ht, Ht'. cbn [option_map].
    exists ((os_runloop_once :: t) ++ t'). split; [reflexivity|].
    rewrite filter_app. cbn [filter is_log negb]. now rewrite Hfx, Hfx'.
Qed.

(** A run of the sketch without its console lines. *)
Lemma sketch_effects (polls : nat) (L0 : lmic_t)
    (iterations : list (list delivery)) :
  exists t,
    sketch bo polls L0 iterations = Some t
    /\ filter (fun c => negb (is_log c)) t
       = (Serial_begin 9600 :: repeat (delay 1) polls)
         ++ [os_init; LMIC_reset; LMIC_startJoining]
         ++ flat_map (fun ds => os_runloop_once :: flat_map (effects_of bo) ds)
              iterations.
Proof.
  destruct (loops_effects iterations) as (t' & Ht' & Hfx').
  unfold sketch. rewrite setup_calls, Ht'.
  eexists. split; [reflexivity|].
  rewrite filter_app, Hfx'. cbn [filter is_log negb].
  rewrite filter_app, filter_repeat. cbn [filter is_log negb].
  cbn [app]. now rewrite <- app_assoc.
Qed.


Lemma filter_effects_none (f : call -> bool) (d : delivery) :
  f (delay 5000) = false -> f (uplink bo) = false ->
  filter f (effects_of bo d) = [].
Proof.
  intros Hd Hu. unfold effects_of.
  destruct (is_txcomplete d); destruct (submits d); cbn [app filter];
    rewrite ?Hd, ?Hu; reflexivity.
Qed.

Lemma filter_deliveries_none (f : call -> bool) (ds : list delivery) :
  f (delay 5000) = false -> f (uplink bo) = false ->
  filter f (flat_map (effects_of bo) ds) = [].
Proof.
  intros Hd Hu. induction ds as [|d ds IH]; cbn [flat_map]; [reflexivity|].
  now rewrite filter_app, IH, filter_effects_none.
Qed.

Lemma sends_of_deliveries (ds : list delivery) :
  filter is_send (flat_map (effects_of bo) ds)
  = map (fun _ => uplink bo) (filter submits ds).
Proof.
  induction ds as [|d ds IH]; cbn [flat_map filter]; [reflexivity|].
  rewrite filter_app, IH. unfold effects_of.
  destruct (is_txcomplete d); destruct (submits d); reflexivity.
Qed.

Lemma delays_of_deliveries (ds : list delivery) :
  filter is_delay (flat_map (effects_of bo) ds)
  = repeat (delay 5000) (length (filter is_txcomplete ds)).
Proof.
  induction ds as [|d ds IH]; cbn [flat_map filter]; [reflexivity|].
  rewrite filter_app, IH. unfold effects_of.
  destruct (is_txcomplete d); destruct (submits d); reflexivity.
Qed.

End WithLmic.

End RunFacts.

Section RunProperties.
Import CInt Packed ProcFacts SketchFacts RunFacts.

Context {lmic : lmic_h} (bo : byte_order).

(** X7. In every run, [os_init], [LMIC_reset] and [LMIC_startJoining] are
    each called once, in this order and before the first
    [os_runloop_once]; no event makes the sketch reset the library or
    ask to join again. *)
Theorem library_is_started_once (polls : nat) (L0 : lmic_t)
    (iterations : list (list delivery)) :
  exists t,
    sketch bo polls L0 iterations = Some t
    /\ filter (fun c => is_bring_up c || is_runloop c) t
       = [os_init; LMIC_reset; LMIC_startJoining]
         ++ repeat os_runloop_once (length iterations).
Proof.
  destruct (sketch_effects bo polls L0 iterations) as (t & Ht & Hfx).
  exists t. split; [exact Ht|].
  rewrite <- (filter_filter _ (fun c => negb (is_log c)))
    by (intros c; destruct c; (discriminate || reflexivity)).
  rewrite Hfx, !filter_app. cbn [filter is_bring_up is_runloop orb].
  rewrite filter_repeat. cbn [is_bring_up is_runloop orb app]. do 3 f_equal.
  clear Ht Hfx. induction iterations as [|ds its IH]; [reflexivity|].
  cbn [flat_map length repeat]. rewrite filter_app, IH.
  cbn [filter is_bring_up is_runloop orb].
  now rewrite filter_deliveries_none.
Qed.

(** X8. In every run the sends are as many as the deliveries of
    [EV_TXCOMPLETE] or [EV_JOINED] that find no transmission pending, one
    for each: setup sends nothing, no other event sends, and no event
    sends twice. *)
Theorem one_send_per_submitting_event (polls : nat) (L0 : lmic_t)
    (iterations : list (list delivery)) :
  exists t,
    sketch bo polls L0 iterations = Some t
    /\ filter is_send t
       = map (fun _ => uplink bo) (filter submits (concat iterations)).
Proof.
  destruct (sketch_effects bo polls L0 iterations) as (t & Ht & Hfx).
  exists t. split; [exact Ht|].
  rewrite <- (filter_filter _ (fun c => negb (is_log c)))
    by (intros c; destruct c; (discriminate || reflexivity)).
  rewrite Hfx, !filter_app. cbn [filter is_send].
  rewrite filter_repeat. cbn [is_send app].
  clear Ht Hfx. induction iterations as [|ds its IH]; [reflexivity|].
  cbn [flat_map concat]. rewrite filter_app, IH, (filter_app submits), map_app.
  cbn [filter is_send]. now rewrite sends_of_deliveries.
Qed.

(** X9. In every run the delays are the 1 ms waits for the serial port,
    then one [delay(5000)] for each [EV_TXCOMPLETE] delivered, whether
    or not the submission after it is dropped. *)
Theorem one_long_delay_per_txcomplete (polls : nat) (L0 : lmic_t)
    (iterations : list (list delivery)) :
  exists t,
    sketch bo polls L0 iterations = Some t
    /\ filter is_delay t
       = repeat (delay 1) polls
         ++ repeat (delay 5000)
              (length (filter is_txcomplete (concat iterations))).
Proof.
  destruct (sketch_effects bo polls L0 iterations) as (t & Ht & Hfx).
  exists t. split; [exact Ht|].
  rewrite <- (filter_filter _ (fun c => negb (is_log c)))
    by (intros c; destruct c; (discriminate || reflexivity)).
  rewrite Hfx, !filter_app. cbn [filter is_delay].
  rewrite filter_repeat. cbn [is_delay app]. f_equal.
  clear Ht Hfx. induction iterations as [|ds its IH]; [reflexivity|].
  cbn [flat_map concat].
  rewrite filter_app, IH, (filter_app is_txcomplete), length_app, repeat_app.
  cbn [filter is_delay]. now rewrite delays_of_deliveries.
Qed.


End RunProperties.

(** ** The credential hooks *)

Module MemFacts.

Lemma memcpy_within (dst src : list Z) (n : nat) :
  (n <= length dst)%nat -> (n <= length src)%nat ->
  memcpy dst src n = Some (firstn n src ++ skipn n dst).
Proof.
  intros Hd Hs. unfold memcpy.
  apply Nat.leb_le in Hd. apply Nat.leb_le in Hs. now rewrite Hd, Hs.
Qed.

Lemma memcpy_past_the_end (dst src : list Z) (n : nat) :
  (length dst < n)%nat -> memcpy dst src n = None.
Proof.
  intros Hd. unfold memcpy. apply Nat.leb_gt in Hd. now rewrite Hd.
Qed.

End MemFacts.

Section Credentials.
Import MemFacts.

(** X11. Given a buffer of at least 8 octets, [os_getArtEui] and
    [os_getDevEui] overwrite its first 8 octets with [APPEUI] and
    [DEVEUI] and leave the rest as it was; [os_getDevKey] does the same
    with the 16 octets of [APPKEY] when the buffer has 16, and writes
    past the end of a shorter buffer. *)
Theorem credential_hooks_fill_the_buffer (buf : list Z) :
  (8 <= length buf)%nat ->
  os_getArtEui buf = Some (APPEUI ++ skipn 8 buf)
  /\ os_getDevEui buf = Some (DEVEUI ++ skipn 8 buf)
  /\ length (APPEUI ++ skipn 8 buf) = length buf
  /\ length (DEVEUI ++ skipn 8 buf) = length buf
  /\ ((16 <= length buf)%nat ->
      os_getDevKey buf = Some (APPKEY ++ skipn 16 buf)
      /\ length (APPKEY ++ skipn 16 buf) = length buf)
  /\ ((length buf < 16)%nat -> os_getDevKey buf = None).
Proof.
  intros H8. unfold os_getArtEui, os_getDevEui, os_getDevKey.
  rewrite !memcpy_within by (exact H8 || (cbn; lia)).
  change (firstn 8 APPEUI) with APPEUI. change (firstn 8 DEVEUI) with DEVEUI.
  rewrite !length_app, !length_skipn.
  change (length APPEUI) with 8%nat. change (length DEVEUI) with 8%nat.
  change (length APPKEY) with 16%nat.
  repeat split; try lia.
  - now rewrite memcpy_within by (assumption || (cbn; lia)).
  - intros Hlt. now apply memcpy_past_the_end.
Qed.

End Credentials.

(** ** Instances of the further properties *)

Lemma GPS_TDF_DATA_octets_round_trip_witness :
  well_typed GPS_TDF_DATA_members (Data dummy_record) = true
  /\ GPS_TDF_DATA_of_octets CInt.LittleEndian
       (Packed.struct_repr CInt.LittleEndian GPS_TDF_DATA_members
          (Data dummy_record))
     = Some (Data dummy_record).
Proof.
  assert (Hwt : well_typed GPS_TDF_DATA_members (Data dummy_record)
                = true) by reflexivity.
  split; [exact Hwt|].
  exact (GPS_TDF_DATA_octets_round_trip CInt.LittleEndian (Data dummy_record)
           Hwt).
Defined.

Lemma GPS_TDF_octets_injective_witness :
  let a := dummy_record in
  let b := set_Data_lat (1234567890 + 2 ^ 32)
             (mk_GPS_TDF 281 (mk_GPS_TDF_DATA 0 0 0 0 0 0 0 0 0 0)) in
  (well_typed GPS_TDF_members a = true
   /\ well_typed GPS_TDF_members b = true
   /\ Packed.struct_repr CInt.BigEndian GPS_TDF_members a
      = Packed.struct_repr CInt.BigEndian GPS_TDF_members b)
  /\ a = b.
Proof.
  intros a b.
  assert (Ha : well_typed GPS_TDF_members a = true) by reflexivity.
  assert (Hb : well_typed GPS_TDF_members b = true) by reflexivity.
  assert (Heq : Packed.struct_repr CInt.BigEndian GPS_TDF_members a
                = Packed.struct_repr CInt.BigEndian GPS_TDF_members b)
    by reflexivity.
  split; [repeat split; assumption|].
  exact (GPS_TDF_octets_injective CInt.BigEndian a b Ha Hb Heq).
Defined.

Lemma lat_assignment_wraps_witness :
  well_typed GPS_TDF_members dummy_record = true
  /\ well_typed GPS_TDF_members (set_Data_lat (2 ^ 31) dummy_record)
     = true
  /\ lat (Data (set_Data_lat (2 ^ 31) dummy_record)) = - 2 ^ 31.
Proof.
  assert (Hwt : well_typed GPS_TDF_members dummy_record = true)
    by reflexivity.
  split; [exact Hwt|].
  split; [|reflexivity].
  exact (proj1 (lat_assignment_wraps (2 ^ 31) dummy_record Hwt)).
Defined.

Lemma credential_hooks_fill_the_buffer_witness :
  let buf := [1; 2; 3; 4; 5; 6; 7; 8; 9; 10] in
  (8 <= length buf)%nat
  /\ os_getDevEui buf = Some [0; 0; 0; 0; 0; 0; 0; 0; 9; 10]
  /\ os_getDevKey buf = None.
Proof.
  intros buf.
  assert (H8 : (8 <= length buf)%nat) by (cbn; lia).
  split; [exact H8|].
  destruct (credential_hooks_fill_the_buffer buf H8)
    as (_ & Hdev & _ & _ & _ & Hkey).
  split; [exact Hdev|]. apply Hkey. cbn. lia.
Defined.
